(** * Prisma calculator: the tab store, its persistence and its formulas

    A shallow embedding of [src/app.tsx]: the arithmetic of the arbitrage
    and funding calculators, the tab store ([calculators], [activeTabId])
    with its handlers, the load-time merge of the cloud and local settings
    snapshots, and the device-local storage accesses.

    JavaScript numbers are IEEE 754 binary64 values, embedded as the
    primitive [float]; objects are finite maps from property names to
    values; strings are sequences of 8-bit code units (ASCII text). *)

From Stdlib Require Import ZArith Floats Ascii String DecimalString Lia.
From stdpp Require Import gmap strings list.

Local Open Scope string_scope.
Local Open Scope Z_scope.

(** ** The JavaScript runtime the source relies on *)

Module JS.

(** *** Numbers *)

Definition number := float.

Definition isNaN (x : number) : bool := negb (PrimFloat.eqb x x).

(** [x || d] on numbers: [NaN], [+0] and [-0] are falsy. *)
Definition num_or (x d : number) : number :=
  if isNaN x || PrimFloat.eqb x PrimFloat.zero then d else x.

(** [x > y] *)
Definition gt (x y : number) : bool := PrimFloat.ltb y x.

(** [x !== y] *)
Definition strict_ne (x y : number) : bool := negb (PrimFloat.eqb x y).

Definition signed_zero (neg : bool) : number :=
  if neg then PrimFloat.neg_zero else PrimFloat.zero.

Definition signed_infinity (neg : bool) : number :=
  if neg then PrimFloat.neg_infinity else PrimFloat.infinity.

(** The fraction [num/den] divided by [2^e], kept exact. *)
Definition scale2 (num den e : Z) : Z * Z :=
  if 0 <=? e then (num, den * 2 ^ e) else (num * 2 ^ (- e), den).

(** The Number value of the non-negative rational [num/den] carrying the
    sign [neg]: the nearest binary64, ties to even, overflow to infinity
    (what StringNumericValue and parseInt do with a mathematical value). *)
Definition nearest_double (neg : bool) (num den : Z) : number :=
  if num =? 0 then signed_zero neg else
  let e0 := Z.log2 num - Z.log2 den - 52 in
  let e1 := let '(n, d) := scale2 num den e0 in
            if n / d <? 2 ^ 52 then e0 - 1 else e0 in
  let e := Z.max e1 (-1074) in
  let '(n, d) := scale2 num den e in
  let m := n / d in
  let r := n mod d in
  let m' := match 2 * r ?= d with
            | Lt => m
            | Gt => m + 1
            | Eq => if Z.even m then m else m + 1
            end in
  let '(m2, e2) := if m' =? 2 ^ 53 then (2 ^ 52, e + 1) else (m', e) in
  if m2 =? 0 then signed_zero neg
  else if 971 <? e2 then signed_infinity neg
  else SF2Prim (S754_finite neg (Z.to_pos m2) e2).

(** *** Decimal text *)

Definition digits_of (n : Z) : string :=
  NilZero.string_of_uint (N.to_uint (Z.to_N n)).

Fixpoint zeros (n : nat) : string :=
  match n with
  | O => EmptyString
  | S n' => String "0" (zeros n')
  end.

Definition str_take (n : nat) (s : string) : string := substring 0 n s.

Definition str_drop (n : nat) (s : string) : string :=
  substring n (String.length s - n)%nat s.

(** The fraction [num/den] divided by [10^p], kept exact. *)
Definition scale10 (num den p : Z) : Z * Z :=
  if 0 <=? p then (num, den * 10 ^ p) else (num * 10 ^ (- p), den).

(** Number::toString, radix 10, steps 5 onwards: [n] with
    [10^(n-1) <= num/den < 10^n], searched upwards from an under-estimate. *)
Fixpoint dec_exponent_from (fuel : nat) (num den n : Z) : Z :=
  match fuel with
  | O => n
  | S fuel' =>
      let '(a, b) := scale10 num den n in
      if a <? b then n else dec_exponent_from fuel' num den (n + 1)
  end.

Definition dec_exponent (num den : Z) : Z :=
  let l := Z.log2 num - Z.log2 den in
  dec_exponent_from 8 num den ((l - 1) * 30103 / 100000 - 1).

(** The [k]-digit candidate for the digits of [x = num/den]: the integer
    [s] nearest to [x / 10^(n-k)] among those whose value reads back as
    [x], if there is one. *)
Definition digits_candidate (x : number) (num den n k : Z) : option Z :=
  let p := n - k in
  let '(a, b) := scale10 num den p in
  let lo := a / b in
  let hi := lo + 1 in
  let reads s := let '(c, d) := scale10 s 1 (- p) in
                 PrimFloat.eqb (nearest_double false c d) x in
  let dlo := a - lo * b in
  let dhi := hi * b - a in
  match reads lo, reads hi with
  | true, true =>
      Some (match dlo ?= dhi with
            | Lt => lo
            | Gt => hi
            | Eq => if Z.even lo then lo else hi
            end)
  | true, false => Some lo
  | false, true => Some hi
  | false, false => None
  end.

Fixpoint shortest_digits (fuel : nat) (x : number) (num den n k : Z) : Z * Z * Z :=
  match fuel with
  | O => (num / den, n, k)
  | S fuel' =>
      match digits_candidate x num den n k with
      | Some s => if s =? 10 ^ k then (1, n + 1, 1) else (s, n, k)
      | None => shortest_digits fuel' x num den n (k + 1)
      end
  end.

Definition exponent_text (e : Z) : string :=
  (if e <? 0 then "e-" else "e+") ++ digits_of (Z.abs e).

(** Number::toString for a positive finite value [num/den = x]. *)
Definition positive_toString (x : number) (num den : Z) : string :=
  let '(s, n, k) := shortest_digits 17 x num den (dec_exponent num den) 1 in
  let d := digits_of s in
  if (k <=? n) && (n <=? 21) then d ++ zeros (Z.to_nat (n - k))
  else if (0 <? n) && (n <=? 21) then
    str_take (Z.to_nat n) d ++ "." ++ str_drop (Z.to_nat n) d
  else if (-6 <? n) && (n <=? 0) then "0." ++ zeros (Z.to_nat (- n)) ++ d
  else if k =? 1 then d ++ exponent_text (n - 1)
  else str_take 1 d ++ "." ++ str_drop 1 d ++ exponent_text (n - 1).

(** Number::toString(x), radix 10: what a template literal does with a
    number. *)
Definition Number_toString (x : number) : string :=
  match Prim2SF x with
  | S754_nan => "NaN"
  | S754_zero _ => "0"
  | S754_infinity s => if s then "-Infinity" else "Infinity"
  | S754_finite s m e =>
      let '(num, den) := scale2 (Zpos m) 1 (- e) in
      (if s then "-" else "") ++ positive_toString (PrimFloat.abs x) num den
  end.

(** The digits of the integer [n] with a decimal point before the last
    [f] of them (Number.prototype.toFixed, step 11). *)
Definition fixed_text (n : Z) (f : nat) : string :=
  let m := digits_of n in
  match f with
  | O => m
  | _ =>
      let k := String.length m in
      let m' := if (k <=? f)%nat then zeros (f + 1 - k)%nat ++ m else m in
      let k' := String.length m' in
      str_take (k' - f)%nat m' ++ "." ++ str_drop (k' - f)%nat m'
  end.

(** Number.prototype.toFixed(f) for [0 <= f <= 100]: the integer [n]
    with [n / 10^f - x] closest to zero, the larger one on a tie. *)
Definition toFixed (x : number) (f : nat) : string :=
  match Prim2SF x with
  | S754_nan => "NaN"
  | S754_infinity s => if s then "-Infinity" else "Infinity"
  | S754_zero _ => fixed_text 0 f
  | S754_finite s m e =>
      let '(num, den) := scale2 (Zpos m) 1 (- e) in
      if 10 ^ 21 * den <=? num then Number_toString x
      else
        let n := (2 * num * 10 ^ Z.of_nat f + den) / (2 * den) in
        (if s then "-" else "") ++ fixed_text n f
  end.

(** *** Reading numbers from text *)

Definition is_digit (c : ascii) : bool :=
  let n := N_of_ascii c in ((48 <=? n) && (n <=? 57))%N.

Definition digit_value (c : ascii) : Z := Z.of_N (N_of_ascii c) - 48.

(** White space and line terminators among the 8-bit code units below 128:
    TAB, LF, VT, FF, CR, SP. *)
Definition is_space (c : ascii) : bool :=
  let n := N_of_ascii c in (((9 <=? n) && (n <=? 13)) || (n =? 32))%N.

Fixpoint trim_start (s : string) : string :=
  match s with
  | String c s' => if is_space c then trim_start s' else s
  | EmptyString => s
  end.

(** A run of decimal digits at the head of [s]: its value (continuing
    [acc]), how many digits were read (continuing [cnt]), and the rest. *)
Fixpoint read_digits (s : string) (acc cnt : Z) : Z * Z * string :=
  match s with
  | String c s' =>
      if is_digit c then read_digits s' (10 * acc + digit_value c) (cnt + 1)
      else (acc, cnt, s)
  | EmptyString => (acc, cnt, s)
  end.

Definition read_sign (s : string) : bool * string :=
  match s with
  | String "-" s' => (true, s')
  | String "+" s' => (false, s')
  | _ => (false, s)
  end.

(** The value of an ExponentPart at the head of [s]; [0] when there is no
    complete one (an [e] without digits is not part of the literal). *)
Definition read_exponent (s : string) : Z :=
  match s with
  | String c s' =>
      if Ascii.eqb c "e" || Ascii.eqb c "E" then
        let '(neg, s'') := read_sign s' in
        let '(v, cnt, _) := read_digits s'' 0 0 in
        if cnt =? 0 then 0 else if neg then - v else v
      else 0
  | EmptyString => 0
  end.

(** parseFloat(string): skip leading white space, take the longest prefix
    that is a StrDecimalLiteral, and return its Number value; [NaN] when
    there is no such prefix. *)
Definition parseFloat (input : string) : number :=
  let '(neg, s) := read_sign (trim_start input) in
  if String.prefix "Infinity" s then signed_infinity neg else
  let '(vi, ni, s1) := read_digits s 0 0 in
  let '(vf, nf, s2) := match s1 with
                       | String "." s' => read_digits s' 0 0
                       | _ => (0, 0, s1)
                       end in
  if (ni =? 0) && (nf =? 0) then PrimFloat.nan else
  let mant := vi * 10 ^ nf + vf in
  let e := read_exponent s2 - nf in
  let '(num, den) := scale10 mant 1 (- e) in
  nearest_double neg num den.

(** parseInt(string, 10) *)
Definition parseInt (input : string) : number :=
  let '(neg, s) := read_sign (trim_start input) in
  let '(v, cnt, _) := read_digits s 0 0 in
  if cnt =? 0 then PrimFloat.nan else nearest_double neg v 1.

Fixpoint all_digits (s : string) : bool :=
  match s with
  | String c s' => is_digit c && all_digits s'
  | EmptyString => true
  end.

(** [name.match(/^<prefix>(\d+)$/)]: the captured digits, if the whole of
    [name] is [prefix] followed by one or more decimal digits. *)
Definition match_digits_after (prefix name : string) : option string :=
  if String.prefix prefix name then
    let d := str_drop (String.length prefix) name in
    if negb (String.eqb d "") && all_digits d then Some d else None
  else None.

(** *** Arrays of numbers *)

(** Array.prototype.sort with a comparator, as a stable insertion sort:
    [x] goes after [y] when [cmp x y > 0]. *)
Fixpoint insert_sorted (cmp : number -> number -> number) (x : number)
    (l : list number) : list number :=
  match l with
  | [] => [x]
  | y :: l' => if gt (cmp x y) PrimFloat.zero then y :: insert_sorted cmp x l'
               else x :: l
  end.

Definition sort_with (cmp : number -> number -> number) (l : list number)
    : list number :=
  foldr (insert_sorted cmp) [] l.

(** *** Values *)

#[local] Set Warnings "-register-all".

Inductive jsval :=
  | JUndefined
  | JNull
  | JBool (b : bool)
  | JNum (x : number)
  | JStr (s : string)
  | JArr (l : list jsval)
  | JObj (o : gmap string jsval).

Abbreviation object := (gmap string jsval).

(** Property read [o.k]: [undefined] when the object has no such key. *)
Definition get (o : object) (k : string) : jsval := default JUndefined (o !! k).

(** ToBoolean *)
Definition truthy (v : jsval) : bool :=
  match v with
  | JUndefined | JNull => false
  | JBool b => b
  | JNum x => negb (isNaN x || PrimFloat.eqb x PrimFloat.zero)
  | JStr s => negb (String.eqb s "")
  | JArr _ | JObj _ => true
  end.

(** [a || b] *)
Definition or_else (a b : jsval) : jsval := if truthy a then a else b.

(** [a === b]. Arrays and objects compare by identity, which a value does
    not carry: for them the answer here is [false], that of two distinct
    allocations. The source applies [===] to ids (numbers), to types and
    to result texts (strings). *)
Definition strict_eq (a b : jsval) : bool :=
  match a, b with
  | JUndefined, JUndefined => true
  | JNull, JNull => true
  | JBool x, JBool y => Bool.eqb x y
  | JNum x, JNum y => PrimFloat.eqb x y
  | JStr x, JStr y => String.eqb x y
  | _, _ => false
  end.

(** Object spread [{...base, ...over}]: the keys of [over] win. *)
Definition spread (base over : object) : object := over ∪ base.

(** Object literal from its properties, in source order. *)
Definition obj (props : list (string * jsval)) : object := list_to_map props.

End JS.

Import JS.

Local Open Scope float_scope.

(** ** Exceptions *)

Inductive error := TypeError | SyntaxError | DOMException.

Inductive outcome (A : Type) :=
  | Returned (a : A)
  | Thrown (e : error).

Arguments Returned {A} a.
Arguments Thrown {A} e.

#[global] Instance outcome_ret : MRet outcome := @Returned.

#[global] Instance outcome_bind : MBind outcome := λ A B f m,
  match m with
  | Returned a => f a
  | Thrown e => Thrown e
  end.

(** [try { body } catch (error) { console.error(...) }]: the handlers of
    the source only log, so a caught exception leaves [fallback]. *)
Definition try_catch {A} (body : outcome A) (fallback : A) : A :=
  match body with
  | Returned a => a
  | Thrown _ => fallback
  end.

(** ** Calculator instances *)

(** [getNewCalculator(id, count)]; [now] is the reading of [Date.now()]
    taken for the id of the first purchase row. *)
Definition getNewCalculator (now id count : number) : object :=
  obj [ ("id", JNum id);
        ("type", JStr "arbitrage");
        ("name", JStr ("C " ++ Number_toString count));
        ("openingExch1", JStr "");
        ("openingExch2", JStr "");
        ("closingExch1", JStr "");
        ("closingExch2", JStr "");
        ("totalCoins", JStr "");
        ("purchases", JArr [JObj (obj [("value", JStr ""); ("id", JNum now)])]);
        ("showAverage", JBool false) ].

Definition getNewFundingCalculator (id count : number) : object :=
  obj [ ("id", JNum id);
        ("type", JStr "funding");
        ("name", JStr ("FR " ++ Number_toString count));
        ("positionSize", JStr "");
        ("leverage", JStr "10");
        ("fundingInterval", JStr "8");
        ("shortExchangeName", JStr "Ex A (Short)");
        ("shortExchangeFR", JStr "");
        ("longExchangeName", JStr "Ex B (Long)");
        ("longExchangeFR", JStr "");
        ("log", JArr []) ].

(** ** The arbitrage calculator (component [CalculatorInstance]) *)

Definition calculateDifference (val1 val2 : string) : string :=
  let num1 := parseFloat val1 in
  let num2 := parseFloat val2 in
  if negb (isNaN num1) && negb (isNaN num2) && strict_ne num2 0 then
    toFixed ((num1 - num2) / num2 * 100) 2
  else "0.00".

(** [interface Purchase] *)
Record Purchase := { purchase_id : number; purchase_value : string }.

(** [purchases.reduce((sum, purchase) => sum + parseFloat(purchase.value || '0'), 0)] *)
Definition totalPurchases (purchases : list Purchase) : number :=
  foldl (λ sum purchase,
           sum + parseFloat (if String.eqb (purchase_value purchase) ""
                             then "0" else purchase_value purchase))
        0 purchases.

Definition averagePrice (totalCoins : string) (purchases : list Purchase) : string :=
  let coins := parseFloat totalCoins in
  if negb (isNaN coins) && strict_ne coins 0 && gt (totalPurchases purchases) 0 then
    toFixed (totalPurchases purchases / coins) 4
  else "0.0000".

(** ** The funding calculator (component [FundingRateInstance]) *)

Record projection := {
  netProfitRate : number;
  netProfitUSD : number;
  dailyProfitUSD : number;
  monthlyProfitUSD : number;
  annualProfitUSD : number;
  margin : number;
  apy : number
}.

Definition calculations
    (positionSize leverage fundingInterval shortExchangeFR longExchangeFR : string)
    : projection :=
  let posSize := num_or (parseFloat positionSize) 0 in
  let rA := num_or (parseFloat shortExchangeFR / 100) 0 in
  let rB := num_or (parseFloat longExchangeFR / 100) 0 in
  let lev := num_or (parseFloat leverage) 1 in
  let interval := num_or (parseFloat fundingInterval) 0 in
  if posSize =? 0 then
    {| netProfitRate := 0; netProfitUSD := 0; dailyProfitUSD := 0;
       monthlyProfitUSD := 0; annualProfitUSD := 0; margin := 0; apy := 0 |}
  else
    let netProfitRate := rA - rB in
    let netProfitUSD := posSize * netProfitRate in
    let periodsPerDay := if gt interval 0 then 24 / interval else 0 in
    let dailyProfitUSD := netProfitUSD * periodsPerDay in
    let monthlyProfitUSD := dailyProfitUSD * 30 in
    let annualProfitUSD := dailyProfitUSD * 365 in
    let margin := if gt lev 0 && gt posSize 0 then posSize / lev else 0 in
    let apy := if gt margin 0 then annualProfitUSD / margin * 100 else 0 in
    {| netProfitRate := netProfitRate; netProfitUSD := netProfitUSD;
       dailyProfitUSD := dailyProfitUSD; monthlyProfitUSD := monthlyProfitUSD;
       annualProfitUSD := annualProfitUSD; margin := margin; apy := apy |}.

(** The [newLogEntry] of [handleLogPeriod]; [now] and [timestamp] are
    [Date.now()] and [new Date().toISOString()]. *)
Definition newLogEntry (now : number) (timestamp : string) (calc : projection)
    : jsval :=
  JObj (obj [ ("id", JNum now);
              ("timestamp", JStr timestamp);
              ("profit", JNum (netProfitUSD calc));
              ("rate", JNum (netProfitRate calc)) ]).

(** [handleLogPeriod]: the argument it passes to [onUpdate], if it calls
    it. *)
Definition handleLogPeriod (now : number) (timestamp : string)
    (calc : projection) (log : list jsval) : option object :=
  if netProfitUSD calc =? 0 then None
  else Some (obj [("log", JArr (take 100 (newLogEntry now timestamp calc :: log)))]).

(** ** History *)

(** The [newItem] of [addToHistory]. *)
Definition newItem (now : number) (timestamp : string)
    (type : string) (inputs : jsval) (result tabName : string) : object :=
  obj [ ("id", JNum now); ("timestamp", JStr timestamp); ("type", JStr type);
        ("inputs", inputs); ("result", JStr result); ("tabName", JStr tabName) ].

Definition addToHistory (now : number) (timestamp : string)
    (type : string) (inputs : jsval) (result tabName : string)
    (history : list object) : list object :=
  if String.eqb result "" || String.eqb result "0.00" || String.eqb result "0.0000"
  then history
  else take 50 (newItem now timestamp type inputs result tabName :: history).

(** ** The tab store (component [CryptoCalculator]) *)

Record state := {
  calculators : list object;
  activeTabId : jsval
}.

(** [useState([getNewCalculator(Date.now(), 1)])] and
    [useState(calculators[0].id)]: [t] is the id, [now] the reading taken
    inside [getNewCalculator]. *)
Definition initialState (t now : number) : state :=
  {| calculators := [getNewCalculator now t 1]; activeTabId := JNum t |}.

Definition has_id (id : jsval) (c : object) : bool := strict_eq (get c "id") id.

(** [calculators.find(c => c.id === activeTabId)] *)
Definition activeCalculator (st : state) : option object :=
  List.find (has_id (activeTabId st)) (calculators st).

(** Array.prototype.findIndex: [-1] when no element satisfies [p]. *)
Fixpoint findIndex {A} (p : A -> bool) (l : list A) : Z :=
  match l with
  | [] => (-1)%Z
  | x :: l' =>
      if p x then 0%Z
      else let i := findIndex p l' in if (i <? 0)%Z then (-1)%Z else (i + 1)%Z
  end.

Definition handleUpdateInstance (partialState : object) (st : state) : state :=
  {| calculators :=
       map (λ calc, if has_id (activeTabId st) calc
                    then spread calc partialState else calc)
           (calculators st);
     activeTabId := activeTabId st |}.

Definition handleClearActiveTabFields (now : number) (st : state) : state :=
  {| calculators :=
       map (λ calc,
              if has_id (activeTabId st) calc then
                if strict_eq (get calc "type") (JStr "funding") then
                  spread calc
                    (obj [ ("positionSize", JStr ""); ("shortExchangeFR", JStr "");
                           ("longExchangeFR", JStr ""); ("log", JArr []) ])
                else
                  spread calc
                    (obj [ ("openingExch1", JStr ""); ("openingExch2", JStr "");
                           ("closingExch1", JStr ""); ("closingExch2", JStr "");
                           ("totalCoins", JStr "");
                           ("purchases",
                            JArr [JObj (obj [("value", JStr ""); ("id", JNum now)])]) ])
              else calc)
           (calculators st);
     activeTabId := activeTabId st |}.

Definition handleRenameTab (id : jsval) (newName : string) (st : state) : state :=
  {| calculators :=
       map (λ calc, if has_id id calc
                    then spread calc (obj [("name", JStr newName)]) else calc)
           (calculators st);
     activeTabId := activeTabId st |}.

(** The number a tab name stands for: [parseInt] of the digits when the
    name matches [/^<prefix>(\d+)$/], else [0]. [c.name.match] throws when
    [c.name] is not a string. *)
Definition tab_number (prefix : string) (c : object) : outcome number :=
  match get c "name" with
  | JStr name =>
      Returned (match match_digits_after prefix name with
                | Some digits => parseInt digits
                | None => 0
                end)
  | _ => Thrown TypeError
  end.

(** The loop over [existingNumbers]: count up while the next number is
    the expected one, stop at the first that is not. *)
Fixpoint first_gap (existingNumbers : list number) (newCount : number) : number :=
  match existingNumbers with
  | [] => newCount
  | num :: rest =>
      if num =? newCount then first_gap rest (newCount + 1) else newCount
  end.

Definition next_tab_number (variant prefix : string) (calcs : list object)
    : outcome number :=
  numbers ← mapM (tab_number prefix)
                 (List.filter (λ c, strict_eq (get c "type") (JStr variant)) calcs);
  mret (first_gap (sort_with PrimFloat.sub numbers) 1).

(** [handleAddArbitrageTab]: the new state and the returned id. [newId] is
    the handler's [Date.now()], [now] the reading inside
    [getNewCalculator]. *)
Definition handleAddArbitrageTab (newId now : number) (st : state)
    : outcome (state * number) :=
  newCount ← next_tab_number "arbitrage" "C " (calculators st);
  let newCalc := getNewCalculator now newId newCount in
  mret ({| calculators := calculators st ++ [newCalc];
           activeTabId := JNum newId |}, newId).

Definition handleAddFundingTab (newId : number) (st : state)
    : outcome (state * number) :=
  newCount ← next_tab_number "funding" "FR " (calculators st);
  let newCalc := getNewFundingCalculator newId newCount in
  mret ({| calculators := calculators st ++ [newCalc];
           activeTabId := JNum newId |}, newId).

(** [handleRemoveTab(idToRemove)]; [t] and [now] are the readings of
    [Date.now()] for the id of the fresh instance and inside
    [getNewCalculator]. Reading [.id] of a missing array element throws. *)
Definition handleRemoveTab (t now : number) (idToRemove : jsval) (st : state)
    : outcome state :=
  let currentTabIndex := findIndex (has_id idToRemove) (calculators st) in
  let remainingCalculators :=
    List.filter (λ c, negb (has_id idToRemove c)) (calculators st) in
  if (length remainingCalculators =? 0)%nat then
    let newCalc := getNewCalculator now t 1 in
    mret {| calculators := [newCalc]; activeTabId := get newCalc "id" |}
  else if strict_eq idToRemove (activeTabId st) then
    let newActiveIndex := Z.max 0 (currentTabIndex - 1) in
    match remainingCalculators !! Z.to_nat newActiveIndex with
    | Some c => mret {| calculators := remainingCalculators;
                        activeTabId := get c "id" |}
    | None => Thrown TypeError
    end
  else
    mret {| calculators := remainingCalculators; activeTabId := activeTabId st |}.

(** A click on the tab button at position [index]:
    [setActiveTabId(calc.id)]; there is a button for every instance and
    for nothing else. *)
Definition selectTab (index : nat) (st : state) : state :=
  match calculators st !! index with
  | Some calc => {| calculators := calculators st; activeTabId := get calc "id" |}
  | None => st
  end.

(** ** Settings snapshots and the load-time merge *)

(** What [JSON.parse] gives for a stored snapshot: [calculators] may be
    missing; [activeTabId] is [undefined] when missing. *)
Record settings := {
  settings_calculators : option (list object);
  settings_activeTabId : jsval
}.

(** The merge step of [loadSettings]: [cloudSettings.calculators.map(...)]
    with [localSettings.calculators.find(...)] inside the callback. A
    missing [calculators] makes the property read throw. *)
Definition mergeCalculators (cloudSettings localSettings : settings)
    : outcome (list object) :=
  match settings_calculators cloudSettings with
  | None => Thrown TypeError
  | Some cloudCalcs =>
      mapM (λ cloudCalc,
              match settings_calculators localSettings with
              | None => Thrown TypeError
              | Some localCalcs =>
                  mret (match List.find (λ lc, strict_eq (get lc "id") (get cloudCalc "id"))
                                        localCalcs with
                        | Some localMatch => spread cloudCalc localMatch
                        | None => cloudCalc
                        end)
              end)
           cloudCalcs
  end.

(** The default-field template of the variant of [calc]. *)
Definition defaultState (now : number) (calc : object) : object :=
  if strict_eq (get calc "type") (JStr "funding")
  then getNewFundingCalculator 0 0
  else getNewCalculator now 0 0.

(** One step of [migratedCalculators]:
    [{...defaultState, ...calc, type: calc.type || 'arbitrage', log: calc.log || []}] *)
Definition migrate (now : number) (calc : object) : object :=
  spread (spread (defaultState now calc) calc)
         (obj [ ("type", or_else (get calc "type") (JStr "arbitrage"));
                ("log", or_else (get calc "log") (JArr [])) ]).

(** [loadSettings], from the two snapshots already fetched (each [None]
    when absent or unreadable) to the state it leaves. [clock i] is the
    reading of [Date.now()] while the [i]-th instance is migrated. *)
Definition loadSettings (clock : nat -> number)
    (cloudSettings localSettings : option settings) (st : state)
    : outcome state :=
  match (match cloudSettings with Some s => Some s | None => localSettings end) with
  | None => mret st
  | Some baseSettings =>
      calcs ← match cloudSettings, localSettings with
              | Some c, Some l => merged ← mergeCalculators c l; mret (Some merged)
              | _, _ => mret (settings_calculators baseSettings)
              end;
      match calcs with
      | Some (first :: rest) =>
          let migratedCalculators := imap (λ i calc, migrate (clock i) calc) (first :: rest) in
          mret {| calculators := migratedCalculators;
                  activeTabId :=
                    or_else (settings_activeTabId baseSettings)
                            (get (migrate (clock O) first) "id") |}
      | _ => mret st
      end
  end.

(** ** Device-local storage *)

(** The text kept under a key, by what [JSON.parse] makes of it. *)
Inductive text (A : Type) :=
  | Garbage
  | Encoding (a : A).

Arguments Garbage {A}.
Arguments Encoding {A} a.

(** A key of [localStorage], by what [getItem] does with it: it throws, it
    returns [null] (or the empty string), or it returns a text. *)
Inductive cell (A : Type) :=
  | Unreadable
  | Missing
  | Holds (t : text A).

Arguments Unreadable {A}.
Arguments Missing {A}.
Arguments Holds {A} t.

Definition getItem {A} (c : cell A) : outcome (option (text A)) :=
  match c with
  | Unreadable => Thrown DOMException
  | Missing => mret None
  | Holds t => mret (Some t)
  end.

Definition JSON_parse {A} (t : text A) : outcome A :=
  match t with
  | Garbage => Thrown SyntaxError
  | Encoding a => mret a
  end.

(** [Number.isFinite] *)
Definition isFinite (x : number) : bool :=
  negb (isNaN x) && negb (PrimFloat.abs x =? PrimFloat.infinity).

(** What [JSON.parse] reads back from the text [JSON.stringify] writes
    for a value. A finite number is written as [Number::toString] gives
    it (so [-0] comes back as [0]) and read back from that text; [NaN]
    and the infinities are written as [null]; so is [undefined] inside
    an array, while a property whose value is [undefined] is left out. *)
Fixpoint JSON_value (v : jsval) : jsval :=
  match v with
  | JUndefined => JNull
  | JNum x => if isFinite x then JNum (parseFloat (Number_toString x)) else JNull
  | JArr l => JArr (map JSON_value l)
  | JObj o =>
      JObj (omap (λ p, match p with
                       | JUndefined => None
                       | _ => Some (JSON_value p)
                       end) o)
  | _ => v
  end.

(** The value of a property, if the property is written at all. *)
Definition JSON_property (v : jsval) : option jsval :=
  match v with
  | JUndefined => None
  | _ => Some (JSON_value v)
  end.

Definition JSON_object (o : object) : object := omap JSON_property o.

(** [JSON.parse(JSON.stringify(v))] for the values that are stored. *)
Class Json (A : Type) := reparsed : A -> A.

#[global] Instance Json_object : Json object := JSON_object.

#[global] Instance Json_list {A} `{Json A} : Json (list A) := map reparsed.

(** [stateToSave] is an object literal: its [calculators] is an array of
    objects, its [activeTabId] a property like any other. *)
#[global] Instance Json_settings : Json settings := λ s,
  {| settings_calculators := map JSON_object <$> settings_calculators s;
     settings_activeTabId := default JUndefined (JSON_property (settings_activeTabId s)) |}.

(** [localStorage.setItem(key, JSON.stringify(v))]: the key then holds
    the JSON text of [v], which [JSON.parse] reads back as [reparsed v];
    it throws when the storage refuses the write (quota). *)
Definition setItem {A} `{Json A} (writable : bool) (v : A) : outcome (cell A) :=
  if writable then mret (Holds (Encoding (reparsed v))) else Thrown DOMException.

(** The [try] block of [loadSettings] that reads ['prisma-calc-state']. *)
Definition readLocalSettings (c : cell settings) : option settings :=
  try_catch
    (savedState ← getItem c;
     match savedState with
     | Some t => localSettings ← JSON_parse t; mret (Some localSettings)
     | None => mret None
     end)
    None.

(** The effect that saves the state to ['prisma-calc-state']. *)
Definition saveLocalState (isInitialLoad writable : bool) (st : state)
    (c : cell settings) : cell settings :=
  if isInitialLoad then c
  else
    let stateToSave := {| settings_calculators := Some (calculators st);
                          settings_activeTabId := activeTabId st |} in
    try_catch (setItem writable stateToSave) c.

(** The effect that saves the history to ['prismaCryptoHistory']. *)
Definition saveHistory (writable : bool) (history : list object)
    (c : cell (list object)) : cell (list object) :=
  try_catch (setItem writable history) c.

(** The last two statements of the mount effect: read
    ['prismaCryptoHistory'] and, if there is a text, [setHistory] its
    [JSON.parse]. *)
Definition loadHistory (c : cell (list object)) (history : list object)
    : outcome (list object) :=
  savedHistory ← getItem c;
  match savedHistory with
  | Some t => JSON_parse t
  | None => mret history
  end.

(** The mount effect: [loadSettings()] is started (its promise is not
    awaited, so an exception inside it does not reach the effect and
    leaves the state), then the history is read. *)
Definition mountEffect (clock : nat -> number) (cloudSettings : option settings)
    (settingsCell : cell settings) (historyCell : cell (list object))
    (st : state) (history : list object) : outcome (state * list object) :=
  let st' := try_catch
               (loadSettings clock cloudSettings (readLocalSettings settingsCell) st)
               st in
  history' ← loadHistory historyCell history;
  mret (st', history').

(** ** Events of the tab store *)

Inductive event :=
  | Load (clock : nat -> number) (cloudSettings localSettings : option settings)
  | AddArbitrageTab (newId now : number)
  | AddFundingTab (newId : number)
  | RemoveTab (t now : number) (idToRemove : jsval)
  | RenameTab (id : jsval) (newName : string)
  | UpdateInstance (partialState : object)
  | ClearActiveTabFields (now : number)
  | SelectTab (index : nat).

Definition handle (e : event) (st : state) : outcome state :=
  match e with
  | Load clock cloudSettings localSettings =>
      loadSettings clock cloudSettings localSettings st
  | AddArbitrageTab newId now =>
      r ← handleAddArbitrageTab newId now st; mret (fst r)
  | AddFundingTab newId =>
      r ← handleAddFundingTab newId st; mret (fst r)
  | RemoveTab t now idToRemove => handleRemoveTab t now idToRemove st
  | RenameTab id newName => mret (handleRenameTab id newName st)
  | UpdateInstance partialState => mret (handleUpdateInstance partialState st)
  | ClearActiveTabFields now => mret (handleClearActiveTabFields now st)
  | SelectTab index => mret (selectTab index st)
  end.

(** An exception thrown by a handler is thrown before any [setState]: the
    state stays as it was. *)
Definition after (e : event) (st : state) : state := try_catch (handle e st) st.

(** ** More of the components *)

(** *** Purchase rows of the arbitrage calculator *)

(** [addPurchase]; [newId] is [Date.now() + Math.random()]. *)
Definition addPurchase (newId : number) (purchases : list Purchase) : list Purchase :=
  purchases ++ [{| purchase_id := newId; purchase_value := "" |}].

Definition removePurchase (purchaseId : number) (purchases : list Purchase)
    : list Purchase :=
  if (1 <? length purchases)%nat
  then List.filter (λ p, strict_ne (purchase_id p) purchaseId) purchases
  else purchases.

Definition updatePurchase (purchaseId : number) (value : string)
    (purchases : list Purchase) : list Purchase :=
  map (λ p, if purchase_id p =? purchaseId
            then {| purchase_id := purchase_id p; purchase_value := value |}
            else p)
      purchases.

(** *** Saving a result to the History *)

Definition handleSaveOpening (now : number) (timestamp : string)
    (openingExch1 openingExch2 name : string) (history : list object) : list object :=
  let result := calculateDifference openingExch1 openingExch2 in
  if negb (String.eqb result "0.00") && negb (String.eqb openingExch1 "")
     && negb (String.eqb openingExch2 "")
  then addToHistory now timestamp "Abertura"
         (JObj (obj [ ("openingExch1", JStr openingExch1);
                      ("openingExch2", JStr openingExch2) ]))
         result name history
  else history.

Definition handleSaveClosing (now : number) (timestamp : string)
    (closingExch1 closingExch2 name : string) (history : list object) : list object :=
  let result := calculateDifference closingExch1 closingExch2 in
  if negb (String.eqb result "0.00") && negb (String.eqb closingExch1 "")
     && negb (String.eqb closingExch2 "")
  then addToHistory now timestamp "Fechamento"
         (JObj (obj [ ("closingExch1", JStr closingExch1);
                      ("closingExch2", JStr closingExch2) ]))
         result name history
  else history.

(** A purchase row as the object it is. *)
Definition purchase_object (p : Purchase) : jsval :=
  JObj (obj [("id", JNum (purchase_id p)); ("value", JStr (purchase_value p))]).

(** The [inputs] of a saved average: [purchases.filter(p => p.value)]
    drops the empty rows. *)
Definition average_inputs (totalCoins : string) (purchases : list Purchase) : jsval :=
  JObj (obj [ ("totalCoins", JStr totalCoins);
              ("purchases",
               JArr (map purchase_object
                       (List.filter (λ p, negb (String.eqb (purchase_value p) ""))
                                    purchases))) ]).

(** ['Médio'], the label of a saved average, in UTF-8. *)
Definition label_average : string :=
  String "M" (String (ascii_of_nat 195) (String (ascii_of_nat 169) "dio")).

Definition handleSaveAverage (now : number) (timestamp : string)
    (totalCoins : string) (purchases : list Purchase) (name : string)
    (history : list object) : list object :=
  let result := averagePrice totalCoins purchases in
  let coins := parseFloat totalCoins in
  let total := totalPurchases purchases in
  if negb (String.eqb result "0.0000") && gt coins 0 && gt total 0
  then addToHistory now timestamp label_average
         (average_inputs totalCoins purchases) result name history
  else history.

(** [handleSaveToHistory] of the funding calculator. *)
Definition handleSaveToHistory (now : number) (timestamp : string)
    (calc : projection) (positionSize shortExchangeFR longExchangeFR name : string)
    (history : list object) : list object :=
  if netProfitUSD calc =? 0 then history
  else addToHistory now timestamp "Funding"
         (JObj (obj [ ("positionSize", JStr positionSize);
                      ("shortExchangeFR", JStr shortExchangeFR);
                      ("longExchangeFR", JStr longExchangeFR) ]))
         (toFixed (netProfitRate calc * 100) 4 ++ "% ($"
          ++ toFixed (netProfitUSD calc) 2 ++ ")")
         name history.

(** [handleDeleteHistory]: [prev.filter(item => item.id !== id)] *)
Definition handleDeleteHistory (id : jsval) (history : list object) : list object :=
  List.filter (λ item, negb (strict_eq (get item "id") id)) history.

(** *** The funding log *)

(** Property read [v.k] on any value: it throws on [null] and
    [undefined]; numbers, booleans, strings and arrays have no property of
    the names read here. *)
Definition read (v : jsval) (k : string) : outcome jsval :=
  match v with
  | JObj o => mret (get o k)
  | JUndefined | JNull => Thrown TypeError
  | _ => mret JUndefined
  end.

(** [log.filter(entry => entry.id !== id)] *)
Fixpoint without_id (id : jsval) (log : list jsval) : outcome (list jsval) :=
  match log with
  | [] => mret []
  | entry :: rest =>
      entryId ← read entry "id";
      kept ← without_id id rest;
      mret (if strict_eq entryId id then kept else entry :: kept)
  end.

(** [handleRemoveLogEntry]: the argument it passes to [onUpdate]. *)
Definition handleRemoveLogEntry (id : jsval) (log : list jsval) : outcome object :=
  kept ← without_id id log;
  mret (obj [("log", JArr kept)]).

(** *** The debounced cloud save *)

(** What happens to the function [useDebouncedSave] returns: it is called
    with a payload, the delay of the pending timeout elapses, or the
    component is torn down. *)
Inductive timer_event (A : Type) :=
  | Invoke (payload : A)
  | Elapse
  | Teardown.

Arguments Invoke {A} payload.
Arguments Elapse {A}.
Arguments Teardown {A}.

(** The timeout that is pending (with the arguments it will pass on) and
    the payloads the callback has been called with, oldest first. *)
Record debounce_state (A : Type) := {
  pending : option A;
  delivered : list A
}.

Arguments pending {A} _.
Arguments delivered {A} _.

Definition debounce_step {A} (s : debounce_state A) (e : timer_event A)
    : debounce_state A :=
  match e with
  | Invoke payload =>
      (* clearTimeout(timeoutRef.current); timeoutRef.current = setTimeout(...) *)
      {| pending := Some payload; delivered := delivered s |}
  | Elapse =>
      match pending s with
      | Some payload => {| pending := None; delivered := delivered s ++ [payload] |}
      | None => s
      end
  | Teardown => {| pending := None; delivered := delivered s |}
  end.

Definition debounce_run {A} (trace : list (timer_event A)) : debounce_state A :=
  foldl debounce_step {| pending := None; delivered := [] |} trace.

(** *** The structure fingerprint that gates the cloud save *)

(** [Array.prototype.join]. *)
Fixpoint join (sep : string) (parts : list string) : string :=
  match parts with
  | [] => ""
  | [p] => p
  | p :: rest => p ++ sep ++ join sep rest
  end.

(** ToString, as a template literal applies it. An object whose own
    [toString] property shadows the inherited method has no primitive
    value (the stored value is no function): that throws. *)
Fixpoint toString (v : jsval) : outcome string :=
  match v with
  | JUndefined => mret "undefined"
  | JNull => mret "null"
  | JBool b => mret (if b then "true" else "false")
  | JNum x => mret (Number_toString x)
  | JStr s => mret s
  | JArr l =>
      parts ← (fix elements (l : list jsval) : outcome (list string) :=
                 match l with
                 | [] => mret []
                 | e :: rest =>
                     p ← match e with
                         | JUndefined | JNull => mret ""
                         | _ => toString e
                         end;
                     ps ← elements rest;
                     mret (p :: ps)
                 end) l;
      mret (join "," parts)
  | JObj o =>
      match o !! "toString" with
      | Some _ => Thrown TypeError
      | None => mret "[object Object]"
      end
  end.

(** One entry of the fingerprint: [`${id}-${name}-${type}`]. *)
Definition structure_entry (c : object) : outcome string :=
  id ← toString (get c "id");
  name ← toString (get c "name");
  type ← toString (get c "type");
  mret (id ++ "-" ++ name ++ "-" ++ type).

Definition calculatorStructure (st : state) : outcome string :=
  entries ← mapM structure_entry (calculators st);
  mret (join "," entries).

(** *** The average-price toggle (Ctrl+H and the eye button) *)

(** [!v] *)
Definition not_value (v : jsval) : jsval := JBool (negb (truthy v)).

(** The toggle acts only when the active instance is an arbitrage one:
    [handleUpdateInstance({showAverage: !activeCalculator?.showAverage})]. *)
Definition toggleAverage (st : state) : state :=
  match activeCalculator st with
  | Some active =>
      if strict_eq (get active "type") (JStr "arbitrage")
      then handleUpdateInstance
             (obj [("showAverage", not_value (get active "showAverage"))]) st
      else st
  | None => st
  end.

(** *** The theme (src/theme.tsx) *)

(** The effect of [ThemeProvider] that reads ['prismaCryptoTheme']: the
    theme it leaves. *)
Definition loadTheme (c : cell jsval) (theme : jsval) : jsval :=
  try_catch
    (savedTheme ← getItem c;
     match savedTheme with
     | Some t =>
         parsedTheme ← JSON_parse t;
         light ← read parsedTheme "light";
         if truthy light then
           dark ← read parsedTheme "dark";
           mret (if truthy dark then parsedTheme else theme)
         else mret theme
     | None => mret theme
     end)
    theme.

(** *** The tutorial (src/tutorial.tsx) *)

(** [tutorialSteps.length] *)
Definition tutorialSteps_length : Z := 17.

Inductive tutorial_event :=
  | handleNext
  | handlePrev
  | handleClose
  | ResetElapsed.

(** The tutorial as far as its step goes: the step index and the number
    of resets ([setTimeout(() => setStepIndex(0), 300)]) that
    [handleClose] has scheduled and that are still to come. *)
Record tutorial := {
  stepIndex : Z;
  resets_due : nat
}.

Definition closing (s : tutorial) : tutorial :=
  {| stepIndex := stepIndex s; resets_due := S (resets_due s) |}.

Definition tutorial_step (s : tutorial) (e : tutorial_event) : tutorial :=
  match e with
  | handleNext =>
      if (stepIndex s <? tutorialSteps_length - 1)%Z
      then {| stepIndex := (stepIndex s + 1)%Z; resets_due := resets_due s |}
      else closing s
  | handlePrev =>
      if (0 <? stepIndex s)%Z
      then {| stepIndex := (stepIndex s - 1)%Z; resets_due := resets_due s |}
      else s
  | handleClose => closing s
  | ResetElapsed =>
      match resets_due s with
      | S n => {| stepIndex := 0%Z; resets_due := n |}
      | O => s
      end
  end.

(** [useState(0)] *)
Definition tutorial_start : tutorial := {| stepIndex := 0%Z; resets_due := O |}.

(** The action of the steps ['tab-arbitrage'] and ['tab-funding']: make
    sure a tab of the variant exists and is the active one. [add] is
    [handleAddArbitrageTab] or [handleAddFundingTab] with its clock
    readings. *)
Definition showVariantTab (variant : string)
    (add : state -> outcome (state * number)) (st : state) : outcome state :=
  match List.find (λ c, strict_eq (get c "type") (JStr variant)) (calculators st) with
  | None =>
      r ← add st;
      mret {| calculators := calculators (fst r); activeTabId := JNum (snd r) |}
  | Some tab =>
      if negb (strict_eq (activeTabId st) (get tab "id"))
      then mret {| calculators := calculators st; activeTabId := get tab "id" |}
      else mret st
  end.

(** ** Vocabulary of the properties *)

(** What one purchase row adds to the total: nothing when it is empty,
    else what [parseFloat] reads from it ([NaN] for other text). *)
Definition entry_value (p : Purchase) : number :=
  if String.eqb (purchase_value p) "" then 0 else parseFloat (purchase_value p).

(** The numeric inputs of the funding calculation, as [calculations]
    parses them: text that does not parse, and zero, become the default. *)
Definition parsed_amount (s : string) : number := num_or (parseFloat s) 0.
Definition parsed_rate (s : string) : number := num_or (parseFloat s / 100) 0.
Definition parsed_leverage (s : string) : number := num_or (parseFloat s) 1.

Definition zero_projection : projection :=
  {| netProfitRate := 0; netProfitUSD := 0; dailyProfitUSD := 0;
     monthlyProfitUSD := 0; annualProfitUSD := 0; margin := 0; apy := 0 |}.

(** One press of the log button: the clock readings and the projection on
    display. *)
Record log_press := {
  press_now : number;
  press_timestamp : string;
  press_calc : projection
}.

(** The [log] an instance holds after [onUpdate] stored the argument
    [handleLogPeriod] passed, or the one it held if nothing was passed. *)
Definition logPeriod (log : list jsval) (p : log_press) : list jsval :=
  match handleLogPeriod (press_now p) (press_timestamp p) (press_calc p) log with
  | Some partialState =>
      match get partialState "log" with
      | JArr log' => log'
      | _ => log
      end
  | None => log
  end.

(** The log of a fresh funding instance after a sequence of presses. *)
Definition log_after (presses : list log_press) : list jsval :=
  foldl logPeriod [] presses.

(** One call of [addToHistory]. *)
Record history_call := {
  call_now : number;
  call_timestamp : string;
  call_type : string;
  call_inputs : jsval;
  call_result : string;
  call_tabName : string
}.

Definition addCall (history : list object) (c : history_call) : list object :=
  addToHistory (call_now c) (call_timestamp c) (call_type c) (call_inputs c)
               (call_result c) (call_tabName c) history.

(** The History list after a sequence of calls, from the empty list. *)
Definition history_after (calls : list history_call) : list object :=
  foldl addCall [] calls.

(** The ids of a collection are pairwise different under [===]. *)
Fixpoint unique_ids (calcs : list object) : bool :=
  match calcs with
  | [] => true
  | c :: rest =>
      forallb (λ d, negb (has_id (get c "id") d) && negb (has_id (get d "id") c)) rest
      && unique_ids rest
  end.

(** The merge of one remote instance with the local list, in the words of
    the specification: the first local instance with the same id is laid
    over it, its fields winning. *)
Definition overlay (localCalcs : list object) (remote : object) : object :=
  match List.find (has_id (get remote "id")) localCalcs with
  | Some localMatch => localMatch ∪ remote
  | None => remote
  end.

(** An instance whose [id] is a number, as [interface CalculatorState]
    declares it. *)
Definition number_id (c : object) : bool :=
  match c !! "id" with
  | Some (JNum x) => negb (isNaN x)
  | _ => false
  end.

(** A snapshot that is consistent in itself: its instances have numbers
    for ids, and its [activeTabId] is missing (falsy) or is the id of one
    of them. *)
Definition consistent (s : settings) : bool :=
  match settings_calculators s with
  | Some calcs =>
      forallb number_id calcs
      && (negb (truthy (settings_activeTabId s))
          || existsb (has_id (settings_activeTabId s)) calcs)
  | None => true
  end.

Definition consistent_opt (s : option settings) : bool :=
  match s with
  | Some s => consistent s
  | None => true
  end.

(** The events the tab store is meant for: clock readings are numbers,
    [onUpdate] is called with fields other than [id] (as every call site
    does), and loaded snapshots are consistent. *)
Definition admissible (e : event) : bool :=
  match e with
  | Load _ cloudSettings localSettings =>
      consistent_opt cloudSettings && consistent_opt localSettings
  | AddArbitrageTab newId _ => negb (isNaN newId)
  | AddFundingTab newId => negb (isNaN newId)
  | RemoveTab t _ _ => negb (isNaN t)
  | RenameTab _ _ => true
  | UpdateInstance partialState => bool_decide (partialState !! "id" = None)
  | ClearActiveTabFields _ => true
  | SelectTab _ => true
  end.

(** The states the component goes through. *)
Inductive reachable : state -> Prop :=
  | reachable_initial (t now : number) :
      isNaN t = false -> reachable (initialState t now)
  | reachable_after (e : event) (st : state) :
      reachable st -> admissible e = true -> reachable (after e st).

(** The invariant carried through the events: the collection is not empty,
    every id equals itself under [===], and the active id is the id of a
    member. *)
Definition proper (c : object) : Prop := has_id (get c "id") c = true.

Definition valid (st : state) : Prop :=
  calculators st <> []
  /\ Forall proper (calculators st)
  /\ Exists (λ c, has_id (activeTabId st) c = true) (calculators st).

(** A calculator list and the active id that comes with it, fit to load. *)
Definition ok_list (calcs : list object) (active : jsval) : Prop :=
  Forall (λ c, number_id c = true) calcs
  /\ (truthy active = true -> Exists (λ c, has_id active c = true) calcs).

(** *** Further vocabulary *)

(** The fields [handleClearActiveTabFields] resets in an instance. *)
Definition cleared_fields (calc : object) : list string :=
  if strict_eq (get calc "type") (JStr "funding")
  then ["positionSize"; "shortExchangeFR"; "longExchangeFR"; "log"]
  else ["openingExch1"; "openingExch2"; "closingExch1"; "closingExch2";
        "totalCoins"; "purchases"].

(** A result [addToHistory] stores: not empty and not one of the two
    zero results. *)
Definition stored_result (result : string) : bool :=
  negb (String.eqb result "" || String.eqb result "0.00" || String.eqb result "0.0000").

(** The item a call of [addToHistory] makes. *)
Definition item_of (c : history_call) : object :=
  newItem (call_now c) (call_timestamp c) (call_type c) (call_inputs c)
          (call_result c) (call_tabName c).

(** A press of the log button that logs: the net profit is not zero. *)
Definition logged (p : log_press) : bool := negb (netProfitUSD (press_calc p) =? 0).

Definition entry_of (p : log_press) : jsval :=
  newLogEntry (press_now p) (press_timestamp p) (press_calc p).

(** A log entry that is an object whose id differs from [id]. *)
Definition entry_without (id : jsval) (entry : jsval) : bool :=
  match entry with
  | JObj o => negb (has_id id o)
  | _ => false
  end.

(** Two numbers that are equal, or are both a zero (of either sign). *)
Definition same_up_to_zero_sign (x y : number) : Prop :=
  x = y \/ ((x =? 0) = true /\ (y =? 0) = true).

(** Purchase rows whose ids are pairwise different (under [===]). *)
Fixpoint distinct_rows (purchases : list Purchase) : bool :=
  match purchases with
  | [] => true
  | p :: rest =>
      forallb (λ q, strict_ne (purchase_id p) (purchase_id q)) rest
      && distinct_rows rest
  end.

(** The rows that are not empty. *)
Definition filled (purchases : list Purchase) : list Purchase :=
  List.filter (λ p, negb (String.eqb (purchase_value p) "")) purchases.

(** The payloads of the invocations that are directly followed by the
    elapse of the delay. *)
Fixpoint fired {A} (trace : list (timer_event A)) : list A :=
  match trace with
  | [] => []
  | Invoke payload :: ((Elapse :: _) as rest) => payload :: fired rest
  | _ :: rest => fired rest
  end.

(** What a pending timeout delivers at the head of a trace. *)
Definition due {A} (timeout : option A) (trace : list (timer_event A)) : list A :=
  match timeout, trace with
  | Some payload, Elapse :: _ => [payload]
  | _, _ => []
  end.

(** Two ids that [===] does not tell apart from each other. *)
Definition same_id (a b : jsval) : Prop := a = b \/ strict_eq a b = true.

(** A snapshot whose instances have pairwise different ids. *)
Definition unique_snapshot (s : option settings) : bool :=
  match s with
  | Some s =>
      match settings_calculators s with
      | Some calcs => unique_ids calcs
      | None => true
      end
  | None => true
  end.

(** An event that brings no id twice: the clock reading that becomes the
    id of a new tab is not the id of an instance, and loaded snapshots
    have pairwise different ids. *)
Definition brings_new_ids (e : event) (st : state) : bool :=
  match e with
  | Load _ cloudSettings localSettings =>
      unique_snapshot cloudSettings && unique_snapshot localSettings
  | AddArbitrageTab newId _ | AddFundingTab newId =>
      forallb (λ c, negb (has_id (JNum newId) c)) (calculators st)
  | _ => true
  end.

(** ** Sample data *)

Definition three_tabs : state :=
  {| calculators := [ getNewCalculator 10 10 1;
                      getNewFundingCalculator 20 1;
                      getNewCalculator 30 30 2 ];
     activeTabId := JNum 20 |}.

Definition remote_snapshot : settings :=
  {| settings_calculators :=
       Some [obj [("id", JNum 1); ("name", JStr "A"); ("openingExch1", JStr "7")]];
     settings_activeTabId := JNum 1 |}.

Definition local_snapshot : settings :=
  {| settings_calculators :=
       Some [obj [("id", JNum 1); ("name", JStr "B")];
             obj [("id", JNum 2); ("name", JStr "C")]];
     settings_activeTabId := JNum 2 |}.

Definition session : list event :=
  [ Load (λ _, 5) (Some remote_snapshot) (Some local_snapshot);
    AddFundingTab 6;
    UpdateInstance (obj [("positionSize", JStr "1000")]);
    RemoveTab 7 7 (JNum 1);
    RemoveTab 8 8 (JNum 6);
    ClearActiveTabFields 9;
    RenameTab (JNum 8) "BTC";
    AddArbitrageTab 10 10;
    SelectTab 0 ].

(** * Properties *)

(** ** The runtime on known values *)

Lemma parseFloat_examples :
  parseFloat "  12.5abc" = 12.5
  /\ parseFloat ".5" = 0.5
  /\ parseFloat "5.e3" = 5000
  /\ parseFloat "1e" = 1
  /\ parseFloat "-0" = PrimFloat.neg_zero
  /\ parseFloat "Infinityx" = PrimFloat.infinity
  /\ isNaN (parseFloat "") = true
  /\ isNaN (parseFloat "abc") = true
  /\ isNaN (parseFloat ".") = true
  /\ (parseFloat "0.1" + parseFloat "0.2" =? parseFloat "0.3") = false.
Proof. repeat split; vm_compute; reflexivity. Qed.

Lemma toFixed_examples :
  toFixed (parseFloat "1.005") 2 = "1.00"
  /\ toFixed (parseFloat "2.5") 0 = "3"
  /\ toFixed (parseFloat "1.45") 1 = "1.4"
  /\ toFixed (parseFloat "-0.001") 2 = "-0.00"
  /\ toFixed (parseFloat "1e21") 2 = "1e+21"
  /\ toFixed 0 2 = "0.00"
  /\ toFixed PrimFloat.nan 2 = "NaN".
Proof. repeat split; vm_compute; reflexivity. Qed.

Lemma Number_toString_examples :
  Number_toString (parseFloat "0.1" + parseFloat "0.2") = "0.30000000000000004"
  /\ Number_toString (parseFloat "1e21") = "1e+21"
  /\ Number_toString (parseFloat "123456789012345680000") = "123456789012345680000"
  /\ Number_toString (parseFloat "0.000001") = "0.000001"
  /\ Number_toString (parseFloat "0.0000001") = "1e-7"
  /\ Number_toString (parseFloat "5e-324") = "5e-324"
  /\ Number_toString (parseFloat "-1.50") = "-1.5"
  /\ Number_toString 12 = "12".
Proof. repeat split; vm_compute; reflexivity. Qed.

(** ** The formulas *)

Section Formulas.

(** C4: for every pair of input strings, when both parse to numbers and
    the second to a non-zero one, [calculateDifference] is
    [((a - b) / b) * 100] formatted to two decimals; when either does not
    parse, or the second parses to zero, it is ["0.00"]. *)
Theorem calculateDifference_spec (a b : string) :
  (isNaN (parseFloat a) = false ->
   isNaN (parseFloat b) = false ->
   (parseFloat b =? 0) = false ->
   calculateDifference a b
   = toFixed ((parseFloat a - parseFloat b) / parseFloat b * 100) 2)
  /\ (isNaN (parseFloat a) = true \/ isNaN (parseFloat b) = true
      \/ (parseFloat b =? 0) = true ->
      calculateDifference a b = "0.00").
Proof.
  unfold calculateDifference, strict_ne. split.
  - intros -> -> ->. reflexivity.
  - intros [-> | [-> | ->]]; simpl; rewrite ?andb_false_r; reflexivity.
Qed.

Lemma calculateDifference_spec_witness :
  calculateDifference "51000" "50000" = "2.00"
  /\ calculateDifference "abc" "50000" = "0.00"
  /\ calculateDifference "51000" "0" = "0.00".
Proof.
  split; [| split].
  - rewrite (proj1 (calculateDifference_spec "51000" "50000"));
      vm_compute; reflexivity.
  - apply (proj2 (calculateDifference_spec "abc" "50000")).
    left. vm_compute. reflexivity.
  - apply (proj2 (calculateDifference_spec "51000" "0")).
    right. right. vm_compute. reflexivity.
Defined.

Lemma totalPurchases_entries (purchases : list Purchase) :
  totalPurchases purchases = foldl (λ sum p, sum + entry_value p) 0 purchases.
Proof.
  unfold totalPurchases. generalize 0 as acc.
  induction purchases as [| p ps IH]; intros acc; simpl; [reflexivity |].
  rewrite IH. f_equal. unfold entry_value.
  destruct (String.eqb (purchase_value p) ""); reflexivity.
Qed.

(** C5, as the code has it: the average price is the total of the purchase
    rows (empty rows counting as zero) divided by the parsed [totalCoins],
    to four decimals, when [totalCoins] parses to a non-zero number and
    the total is greater than zero; it is ["0.0000"] when [totalCoins]
    does not parse or parses to zero, or the total is not greater than
    zero. Coins 2 with purchases 1000 and 1000 give ["1000.0000"], coins 0
    give ["0.0000"]. *)
Theorem averagePrice_spec (totalCoins : string) (purchases : list Purchase) :
  let coins := parseFloat totalCoins in
  let total := foldl (λ sum p, sum + entry_value p) 0 purchases in
  (isNaN coins = false -> (coins =? 0) = false -> gt total 0 = true ->
   averagePrice totalCoins purchases = toFixed (total / coins) 4)
  /\ (isNaN coins = true \/ (coins =? 0) = true \/ gt total 0 = false ->
      averagePrice totalCoins purchases = "0.0000")
  /\ averagePrice "2" [ {| purchase_id := 1; purchase_value := "1000" |};
                        {| purchase_id := 2; purchase_value := "1000" |} ]
     = "1000.0000"
  /\ averagePrice "0" purchases = "0.0000".
Proof.
  intros coins total. unfold averagePrice, strict_ne.
  rewrite totalPurchases_entries. fold coins total.
  repeat split.
  - intros -> -> ->. reflexivity.
  - intros [-> | [-> | ->]]; simpl; rewrite ?andb_false_r; reflexivity.
Qed.

Lemma averagePrice_spec_witness :
  averagePrice "1.5" [ {| purchase_id := 1; purchase_value := "" |};
                       {| purchase_id := 2; purchase_value := "3000" |} ]
  = "2000.0000"
  /\ averagePrice "x" [ {| purchase_id := 1; purchase_value := "3000" |} ]
     = "0.0000".
Proof.
  split.
  - rewrite (proj1 (averagePrice_spec "1.5" _)); vm_compute; reflexivity.
  - apply (proj1 (proj2 (averagePrice_spec "x" _))). left. vm_compute. reflexivity.
Defined.

(** C5 as stated fails twice: a negative [totalCoins] is non-positive yet
    gives a negative price, not ["0.0000"]; and a non-empty row that does
    not parse is not counted as zero, it voids the whole total. *)
Lemma averagePrice_negative_coins :
  gt (parseFloat "-2") 0 = false
  /\ averagePrice "-2" [ {| purchase_id := 1; purchase_value := "1000" |} ]
     = "-500.0000"
  /\ averagePrice "2" [ {| purchase_id := 1; purchase_value := "abc" |};
                        {| purchase_id := 2; purchase_value := "1000" |} ]
     = "0.0000"
  /\ averagePrice "2" [ {| purchase_id := 1; purchase_value := "0" |};
                        {| purchase_id := 2; purchase_value := "1000" |} ]
     = "500.0000".
Proof. repeat split; vm_compute; reflexivity. Qed.

End Formulas.

(** ** The funding projection *)

Section Funding.

Variables positionSize leverage fundingInterval shortExchangeFR longExchangeFR : string.

Let posSize := parsed_amount positionSize.
Let rA := parsed_rate shortExchangeFR.
Let rB := parsed_rate longExchangeFR.
Let lev := parsed_leverage leverage.
Let interval := parsed_amount fundingInterval.
Let r := calculations positionSize leverage fundingInterval shortExchangeFR longExchangeFR.

Lemma calculations_zero_position :
  (posSize =? 0) = true -> r = zero_projection.
Proof.
  unfold r, calculations, posSize, parsed_amount. intros ->. reflexivity.
Qed.

Lemma calculations_position :
  (posSize =? 0) = false ->
  netProfitRate r = rA - rB
  /\ netProfitUSD r = posSize * netProfitRate r
  /\ dailyProfitUSD r = netProfitUSD r * (if gt interval 0 then 24 / interval else 0)
  /\ monthlyProfitUSD r = dailyProfitUSD r * 30
  /\ annualProfitUSD r = dailyProfitUSD r * 365
  /\ margin r = (if gt lev 0 && gt posSize 0 then posSize / lev else 0)
  /\ apy r = (if gt (margin r) 0 then annualProfitUSD r / margin r * 100 else 0).
Proof.
  unfold r, calculations, posSize, rA, rB, lev, interval,
    parsed_amount, parsed_rate, parsed_leverage.
  intros ->. simpl. repeat split.
Qed.

End Funding.

(** C3, as the code has it. With the position size, the two rates (as
    fractions), the leverage and the interval parsed as [calculations]
    parses them: when the position size is zero every result is zero, the
    net rate included; otherwise the net rate is short rate minus long
    rate, the profit per period is position size times net rate, the daily
    profit is the period profit times the periods per day (24 / interval
    when the interval is positive, else 0), monthly is daily times 30,
    annual is daily times 365, the margin is position size over leverage
    when both are positive, else 0, and the APY is annual over margin
    times 100 when the margin is positive, else 0. For 1000, -0.18, -1.17,
    8 and 10 the net rate shows as 0.9900 %, the period profit as 9.90,
    daily is three times the period profit and the margin is 100. *)
Theorem calculations_spec
    (positionSize leverage fundingInterval shortExchangeFR longExchangeFR : string) :
  let posSize := parsed_amount positionSize in
  let rA := parsed_rate shortExchangeFR in
  let rB := parsed_rate longExchangeFR in
  let lev := parsed_leverage leverage in
  let interval := parsed_amount fundingInterval in
  let r := calculations positionSize leverage fundingInterval
                        shortExchangeFR longExchangeFR in
  ((posSize =? 0) = true -> r = zero_projection)
  /\ ((posSize =? 0) = false ->
      netProfitRate r = rA - rB
      /\ netProfitUSD r = posSize * netProfitRate r
      /\ dailyProfitUSD r
         = netProfitUSD r * (if gt interval 0 then 24 / interval else 0)
      /\ monthlyProfitUSD r = dailyProfitUSD r * 30
      /\ annualProfitUSD r = dailyProfitUSD r * 365
      /\ margin r = (if gt lev 0 && gt posSize 0 then posSize / lev else 0)
      /\ apy r = (if gt (margin r) 0
                  then annualProfitUSD r / margin r * 100 else 0))
  /\ (let e := calculations "1000" "10" "8" "-0.18" "-1.17" in
      toFixed (netProfitRate e * 100) 4 = "0.9900"
      /\ toFixed (netProfitUSD e) 2 = "9.90"
      /\ dailyProfitUSD e = netProfitUSD e * 3
      /\ margin e = 100
      /\ apy e = annualProfitUSD e / margin e * 100).
Proof.
  intros. split; [| split].
  - apply calculations_zero_position.
  - apply calculations_position.
  - repeat split; vm_compute; reflexivity.
Qed.

Lemma calculations_spec_witness :
  calculations "" "10" "8" "1" "0" = zero_projection
  /\ netProfitUSD (calculations "1000" "" "8" "1" "0") = 10
  /\ margin (calculations "1000" "" "8" "1" "0") = 1000.
Proof.
  split; [| split].
  - apply (proj1 (calculations_spec "" "10" "8" "1" "0")). vm_compute. reflexivity.
  - destruct (proj1 (proj2 (calculations_spec "1000" "" "8" "1" "0")))
      as (_ & H & _); [vm_compute; reflexivity |].
    rewrite H. vm_compute. reflexivity.
  - destruct (proj1 (proj2 (calculations_spec "1000" "" "8" "1" "0")))
      as (_ & _ & _ & _ & _ & H & _); [vm_compute; reflexivity |].
    rewrite H. vm_compute. reflexivity.
Defined.

(** C3 as stated fails: with a position size of zero the net rate is 0,
    not short rate minus long rate. And in the worked example the net
    rate is the binary64 number just below 0.0099. *)
Lemma calculations_no_position :
  netProfitRate (calculations "0" "10" "8" "1" "0") = 0
  /\ (parsed_rate "1" - parsed_rate "0" =? 0) = false
  /\ Number_toString (parsed_rate "1" - parsed_rate "0") = "0.01"
  /\ Number_toString (netProfitRate (calculations "1000" "10" "8" "-0.18" "-1.17"))
     = "0.009899999999999999".
Proof. repeat split; vm_compute; reflexivity. Qed.

(** ** The caps of the funding log and of the History *)

Section Caps.

Lemma handleLogPeriod_cases now timestamp calc (log : list jsval) :
  handleLogPeriod now timestamp calc log = None
  \/ handleLogPeriod now timestamp calc log
     = Some (obj [("log", JArr (take 100 (newLogEntry now timestamp calc :: log)))]).
Proof.
  unfold handleLogPeriod. destruct (netProfitUSD calc =? 0); auto.
Qed.

Lemma logPeriod_cases (log : list jsval) (p : log_press) :
  logPeriod log p = log
  \/ logPeriod log p
     = take 100 (newLogEntry (press_now p) (press_timestamp p) (press_calc p) :: log).
Proof.
  unfold logPeriod.
  destruct (handleLogPeriod_cases (press_now p) (press_timestamp p) (press_calc p) log)
    as [-> | ->]; auto.
Qed.

Lemma log_after_bound_from (presses : list log_press) (log : list jsval) :
  (length log <= 100)%nat -> (length (foldl logPeriod log presses) <= 100)%nat.
Proof.
  revert log. induction presses as [| p ps IH]; intros log Hlog; simpl; [exact Hlog |].
  apply IH. destruct (logPeriod_cases log p) as [-> | ->]; [exact Hlog |].
  rewrite length_take. lia.
Qed.

Lemma addToHistory_cases now timestamp type inputs result tabName (history : list object) :
  addToHistory now timestamp type inputs result tabName history = history
  \/ addToHistory now timestamp type inputs result tabName history
     = take 50 (newItem now timestamp type inputs result tabName :: history).
Proof.
  unfold addToHistory.
  destruct (String.eqb result "" || String.eqb result "0.00"
            || String.eqb result "0.0000"); auto.
Qed.

Lemma history_after_bound_from (calls : list history_call) (history : list object) :
  (length history <= 50)%nat -> (length (foldl addCall history calls) <= 50)%nat.
Proof.
  revert history. induction calls as [| c cs IH]; intros history Hh; simpl; [exact Hh |].
  apply IH. unfold addCall.
  destruct (addToHistory_cases (call_now c) (call_timestamp c) (call_type c)
              (call_inputs c) (call_result c) (call_tabName c) history) as [-> | ->];
    [exact Hh |].
  rewrite length_take. lia.
Qed.

End Caps.

Lemma foldl_pointwise {A B} (f g : A -> B -> A) (l : list B) (a : A) :
  (forall a b, f a b = g a b) -> foldl f a l = foldl g a l.
Proof.
  intros H. revert a. induction l as [| b l IH]; intros a; simpl; [reflexivity |].
  now rewrite H, IH.
Qed.

Section NewestFirst.

Context {A B : Type} (keep : B -> bool) (item : B -> A) (n : nat).

Lemma take_app_take (l k : list A) : take n (l ++ take n k) = take n (l ++ k).
Proof.
  rewrite !take_app, take_take. do 2 f_equal. lia.
Qed.

(** Putting each kept element first and cutting to [n] gives the last [n]
    kept elements, newest first. *)
Lemma capped_newest_first (xs : list B) (h : list A) :
  (length h <= n)%nat ->
  foldl (λ h x, if keep x then take n (item x :: h) else h) h xs
  = take n (rev (map item (List.filter keep xs)) ++ h).
Proof.
  revert h. induction xs as [| x xs IH]; intros h Hh; simpl.
  - symmetry. now apply take_ge.
  - destruct (keep x); simpl.
    + rewrite IH by (rewrite length_take; lia).
      rewrite take_app_take, <- app_assoc. reflexivity.
    + now apply IH.
Qed.

End NewestFirst.


(** [onUpdate] is [handleUpdateInstance]: the fields passed replace those
    of the active instance, so the [log] passed by [handleLogPeriod] is
    the one the next press starts from; the other instances stay. *)
Lemma handleUpdateInstance_stores (partialState : object) (st : state)
    (i : nat) (c : object) :
  calculators st !! i = Some c ->
  (has_id (activeTabId st) c = true ->
   exists c', calculators (handleUpdateInstance partialState st) !! i = Some c'
              /\ forall k v, partialState !! k = Some v -> get c' k = v)
  /\ (has_id (activeTabId st) c = false ->
      calculators (handleUpdateInstance partialState st) !! i = Some c).
Proof.
  intros Hi. unfold handleUpdateInstance. simpl.
  change (map ?f ?l) with (f <$> l). rewrite list_lookup_fmap, Hi. simpl. split.
  - intros ->. eexists. split; [reflexivity |].
    intros k v Hk. unfold get, spread. now rewrite (lookup_union_Some_l _ _ _ _ Hk).
  - intros ->. reflexivity.
Qed.

(** C8: whatever the sequence of insertions, the funding log of an
    instance holds at most 100 entries and the History at most 50. An
    insertion (a press of the log button while the net profit is not
    zero, a call of [addToHistory] with a result that is stored) puts the
    new entry first and keeps the first 100 (resp. 50) of the list, so
    what is cut off is the oldest; any other press or call leaves the
    list as it is. After any sequence the list is therefore the inserted
    entries, newest first, cut to the 100 (resp. 50) newest. *)
Theorem log_and_history_caps :
  (forall presses : list log_press, (length (log_after presses) <= 100)%nat)
  /\ (forall calls : list history_call, (length (history_after calls) <= 50)%nat)
  /\ (forall (log : list jsval) (p : log_press),
        logPeriod log p
        = if logged p then take 100 (entry_of p :: log) else log)
  /\ (forall (history : list object) (c : history_call),
        addCall history c
        = if stored_result (call_result c) then take 50 (item_of c :: history)
          else history)
  /\ (forall presses : list log_press,
        log_after presses
        = take 100 (rev (map entry_of (List.filter logged presses))))
  /\ (forall calls : list history_call,
        history_after calls
        = take 50 (rev (map item_of
                          (List.filter (λ c, stored_result (call_result c)) calls)))).
Proof.
  assert (Hlog : forall (log : list jsval) (p : log_press),
            logPeriod log p
            = if logged p then take 100 (entry_of p :: log) else log).
  { intros log p. unfold logPeriod, handleLogPeriod, logged, entry_of.
    destruct (netProfitUSD (press_calc p) =? 0); reflexivity. }
  assert (Hhistory : forall (history : list object) (c : history_call),
            addCall history c
            = if stored_result (call_result c) then take 50 (item_of c :: history)
              else history).
  { intros history c. unfold addCall, addToHistory, stored_result, item_of.
    destruct (String.eqb (call_result c) "" || String.eqb (call_result c) "0.00"
              || String.eqb (call_result c) "0.0000"); reflexivity. }
  split; [| split; [| split; [| split; [| split]]]].
  - intros presses. apply log_after_bound_from. simpl. lia.
  - intros calls. apply history_after_bound_from. simpl. lia.
  - exact Hlog.
  - exact Hhistory.
  - intros presses. unfold log_after.
    rewrite <- (app_nil_r (rev _)).
    rewrite <- (capped_newest_first logged entry_of 100 presses []) by (simpl; lia).
    apply foldl_pointwise. exact Hlog.
  - intros calls. unfold history_after.
    rewrite <- (app_nil_r (rev _)).
    rewrite <- (capped_newest_first _ item_of 50 calls []) by (simpl; lia).
    apply foldl_pointwise. exact Hhistory.
Qed.

(** ** Tab numbering *)

(** The worked example: with "C 2" removed from C 1, C 2, C 3 the next
    arbitrage tab is "C 2" again. *)
Lemma next_tab_number_fills_gap :
  let named n := obj [("type", JStr "arbitrage"); ("name", JStr n)] in
  next_tab_number "arbitrage" "C " [named "C 1"; named "C 2"; named "C 3"]
  = Returned 4
  /\ next_tab_number "arbitrage" "C " [named "C 1"; named "C 3"] = Returned 2.
Proof. split; vm_compute; reflexivity. Qed.

(** C2, where the code departs from it: a same-variant tab whose name does
    not match the pattern counts as number 0, which sorts first and stops
    the scan at once, so the new tab is numbered 1 whatever numbers are in
    use. Open a second arbitrage tab, rename it, open a third: it is
    called "C 1" like the first. The funding tabs behave alike. *)
Theorem handleAddArbitrageTab_after_rename :
  let names st := map (λ c, get c "name") (calculators st) in
  let st1 := after (AddArbitrageTab 2 2) (initialState 1 1) in
  let st2 := after (RenameTab (JNum 2) "BTC") st1 in
  let st3 := after (AddArbitrageTab 3 3) st2 in
  names st2 = [JStr "C 1"; JStr "BTC"]
  /\ names st3 = [JStr "C 1"; JStr "BTC"; JStr "C 1"]
  /\ (let fr1 := after (AddFundingTab 4) st3 in
      let fr2 := after (AddFundingTab 5) fr1 in
      let fr3 := after (RenameTab (JNum 5) "ETH") fr2 in
      names (after (AddFundingTab 6) fr3)
      = [JStr "C 1"; JStr "BTC"; JStr "C 1"; JStr "FR 1"; JStr "ETH"; JStr "FR 1"]).
Proof. repeat split; vm_compute; reflexivity. Qed.

(** ** Device-local storage *)

(** The three guarded accesses: a failure is caught and what was there
    stays. *)
Lemma guarded_storage_accesses (st : state) (history : list object)
    (settingsCell : cell settings) (historyCell : cell (list object)) :
  readLocalSettings Unreadable = None
  /\ readLocalSettings (Holds Garbage) = None
  /\ saveLocalState false false st settingsCell = settingsCell
  /\ saveHistory false history historyCell = historyCell.
Proof. repeat split. Qed.

(** C9, where the code departs from it: the read of the history in the
    mount effect is the one storage access outside any [try]. When the
    text under ['prismaCryptoHistory'] is not JSON, or [getItem] throws,
    the exception leaves the effect, whatever the settings were. *)
Theorem mountEffect_history_unguarded (clock : nat -> number)
    (cloudSettings : option settings) (settingsCell : cell settings)
    (st : state) (history : list object) :
  mountEffect clock cloudSettings settingsCell (Holds Garbage) st history
  = Thrown SyntaxError
  /\ mountEffect clock cloudSettings settingsCell Unreadable st history
     = Thrown DOMException.
Proof. split; reflexivity. Qed.

(** ** Strict equality *)

Section StrictEquality.

Lemma SFeqb_true a b :
  SFeqb a b = true ->
  (exists s t, a = S754_zero s /\ b = S754_zero t) \/ (a = b /\ a <> S754_nan).
Proof.
  unfold SFeqb, SFcompare.
  destruct a as [s | s | | s m e], b as [t | t | | t m' e']; try discriminate;
    try (destruct s; discriminate); try (destruct t; discriminate).
  - intros _. left. eauto.
  - destruct s, t; try discriminate; intros _; right; split; congruence.
  - destruct s, t; try discriminate;
      destruct (Z.compare_spec e e'); try discriminate;
      destruct (Pos.compare_cont Eq m m') eqn:E; try discriminate;
      apply Pos.compare_eq in E; intros _; right; split; congruence.
Qed.

Lemma SFeqb_refl a : a <> S754_nan -> SFeqb a a = true.
Proof.
  unfold SFeqb, SFcompare.
  destruct a as [s | s | | s m e]; try congruence; intros _; try reflexivity.
  - destruct s; reflexivity.
  - rewrite Z.compare_refl. fold (Pos.compare m m). rewrite Pos.compare_refl.
    destruct s; reflexivity.
Qed.

Lemma SFeqb_sym a b : SFeqb a b = true -> SFeqb b a = true.
Proof.
  intros H. apply SFeqb_true in H as [(s & t & -> & ->) | [<- H]].
  - reflexivity.
  - now apply SFeqb_refl.
Qed.

Lemma SFeqb_trans a b c : SFeqb a b = true -> SFeqb b c = true -> SFeqb a c = true.
Proof.
  intros H1 H2. apply SFeqb_true in H1 as [(s & t & -> & ->) | [<- H1]]; [| exact H2].
  apply SFeqb_true in H2 as [(s' & t' & _ & ->) | [<- _]]; reflexivity.
Qed.

Lemma strict_eq_sym a b : strict_eq a b = true -> strict_eq b a = true.
Proof.
  destruct a, b; simpl; try discriminate; try reflexivity.
  - rewrite !Bool.eqb_true_iff. congruence.
  - rewrite !FloatAxioms.eqb_spec. apply SFeqb_sym.
  - rewrite !String.eqb_eq. congruence.
Qed.

Lemma strict_eq_trans a b c :
  strict_eq a b = true -> strict_eq b c = true -> strict_eq a c = true.
Proof.
  destruct a, b; simpl; try discriminate; destruct c; simpl; try discriminate;
    try reflexivity.
  - rewrite !Bool.eqb_true_iff. congruence.
  - rewrite !FloatAxioms.eqb_spec. apply SFeqb_trans.
  - rewrite !String.eqb_eq. congruence.
Qed.

Lemma strict_eq_proper_l a b : strict_eq a b = true -> strict_eq a a = true.
Proof. intros H. eapply strict_eq_trans; [exact H | now apply strict_eq_sym]. Qed.

End StrictEquality.

(** ** Objects *)

Lemma get_spread_l (base over : object) k v :
  over !! k = Some v -> get (spread base over) k = v.
Proof.
  intros H. unfold get, spread. now rewrite (lookup_union_Some_l _ _ _ _ H).
Qed.

Lemma get_spread_r (base over : object) k :
  over !! k = None -> get (spread base over) k = get base k.
Proof. intros H. unfold get, spread. now rewrite lookup_union_r. Qed.

Lemma lookup_obj_cons k k' v props :
  obj ((k', v) :: props) !! k = if decide (k' = k) then Some v else obj props !! k.
Proof. unfold obj. simpl. apply lookup_insert. Qed.

Lemma lookup_obj_nil k : obj [] !! k = None.
Proof. apply lookup_empty. Qed.

Lemma getNewCalculator_id now id count : get (getNewCalculator now id count) "id" = JNum id.
Proof. reflexivity. Qed.

Lemma getNewFundingCalculator_id id count : get (getNewFundingCalculator id count) "id" = JNum id.
Proof. reflexivity. Qed.

(** ** Removing a tab *)

Section Lists.

Context {A : Type} (p : A -> bool).

Lemma findIndex_nonneg_or (l : list A) :
  (findIndex p l = -1 \/ 0 <= findIndex p l)%Z.
Proof.
  induction l as [| x l IH]; simpl; [now left |].
  destruct (p x); [right; lia |].
  destruct (Z.ltb_spec (findIndex p l) 0); [now left | right; lia].
Qed.

(** When exactly the element at position [i] satisfies [p]. *)
Lemma findIndex_only (l : list A) (i : nat) (x : A) :
  l !! i = Some x -> p x = true ->
  (forall j y, l !! j = Some y -> j <> i -> p y = false) ->
  findIndex p l = Z.of_nat i.
Proof.
  revert i. induction l as [| a l IH]; intros i Hi Hx Hothers; [discriminate |].
  destruct i as [| i]; simpl in *.
  - injection Hi as ->. now rewrite Hx.
  - rewrite (Hothers O a eq_refl) by lia.
    rewrite (IH i Hi Hx).
    + destruct (Z.ltb_spec (Z.of_nat i) 0); lia.
    + intros j y Hj Hne. apply (Hothers (S j) y Hj). lia.
Qed.

Lemma filter_all (q : A -> bool) (l : list A) :
  Forall (λ y, q y = true) l -> List.filter q l = l.
Proof.
  induction 1 as [| y l Hy _ IH]; simpl; [reflexivity |].
  rewrite Hy. now f_equal.
Qed.

Lemma filter_only (l : list A) (i : nat) (x : A) :
  l !! i = Some x -> p x = true ->
  (forall j y, l !! j = Some y -> j <> i -> p y = false) ->
  List.filter (λ y, negb (p y)) l = delete i l.
Proof.
  revert i. induction l as [| a l IH]; intros i Hi Hx Hothers; [discriminate |].
  destruct i as [| i]; simpl in *.
  - injection Hi as ->. rewrite Hx. simpl. apply filter_all.
    apply Forall_lookup_2. intros j y Hj.
    rewrite (Hothers (S j) y Hj); [reflexivity | lia].
  - rewrite (Hothers O a eq_refl) by lia. simpl. f_equal.
    apply (IH i Hi Hx). intros j y Hj Hne. apply (Hothers (S j) y Hj). lia.
Qed.

End Lists.

Lemma unique_ids_lookup (calcs : list object) (i j : nat) (c d : object) :
  unique_ids calcs = true ->
  calcs !! i = Some c -> calcs !! j = Some d -> i <> j ->
  has_id (get c "id") d = false.
Proof.
  revert i j. induction calcs as [| a l IH]; intros i j Hu Hi Hj Hne; [discriminate |].
  simpl in Hu. apply andb_prop in Hu as [Hhead Hrest].
  rewrite forallb_forall in Hhead.
  destruct i as [| i], j as [| j]; simpl in *; try lia.
  - injection Hi as ->.
    assert (Hin : In d l) by (apply list_elem_of_In, list_elem_of_lookup; eauto).
    apply Hhead in Hin. apply andb_prop in Hin as [H _].
    now apply negb_true_iff in H.
  - injection Hj as ->.
    assert (Hin : In c l) by (apply list_elem_of_In, list_elem_of_lookup; eauto).
    apply Hhead in Hin. apply andb_prop in Hin as [_ H].
    now apply negb_true_iff in H.
  - apply (IH i j); auto.
Qed.

(** With unique ids, the member whose id is removed is the only instance
    the filter drops. *)
Lemma only_member_has_id (calcs : list object) (i : nat) (c : object) (id : jsval) :
  unique_ids calcs = true -> calcs !! i = Some c -> has_id id c = true ->
  forall j d, calcs !! j = Some d -> j <> i -> has_id id d = false.
Proof.
  intros Hu Hi Hc j d Hj Hne.
  destruct (has_id id d) eqn:Hd; [| reflexivity].
  rewrite <- (unique_ids_lookup calcs i j c d Hu Hi Hj) by auto.
  unfold has_id in *. symmetry.
  apply (strict_eq_trans _ id); [exact Hd | now apply strict_eq_sym].
Qed.

Section RemoveTab.

Variables (t now : number) (idToRemove : jsval) (st : state).
Variables (i : nat) (c : object).

Hypothesis Hunique : unique_ids (calculators st) = true.
Hypothesis Hmember : calculators st !! i = Some c.
Hypothesis Hid : has_id idToRemove c = true.
Hypothesis Hlen : (2 <= length (calculators st))%nat.

Lemma remaining_is_delete :
  List.filter (λ d, negb (has_id idToRemove d)) (calculators st)
  = delete i (calculators st).
Proof.
  apply (filter_only _ _ _ c Hmember Hid).
  now apply (only_member_has_id _ i c).
Qed.

Lemma remaining_not_empty :
  (length (delete i (calculators st)) =? 0)%nat = false.
Proof.
  apply Nat.eqb_neq. rewrite length_delete by eauto. lia.
Qed.

Lemma handleRemoveTab_inactive :
  strict_eq idToRemove (activeTabId st) = false ->
  handleRemoveTab t now idToRemove st
  = Returned {| calculators := delete i (calculators st);
                activeTabId := activeTabId st |}.
Proof.
  intros Hne. unfold handleRemoveTab.
  rewrite remaining_is_delete, remaining_not_empty, Hne. reflexivity.
Qed.

Lemma handleRemoveTab_active :
  strict_eq idToRemove (activeTabId st) = true ->
  exists c',
    delete i (calculators st) !! (i - 1)%nat = Some c'
    /\ handleRemoveTab t now idToRemove st
       = Returned {| calculators := delete i (calculators st);
                     activeTabId := get c' "id" |}.
Proof.
  intros Heq. unfold handleRemoveTab.
  rewrite remaining_is_delete, remaining_not_empty, Heq.
  rewrite (findIndex_only _ _ i c Hmember Hid)
    by now apply (only_member_has_id _ i c).
  replace (Z.to_nat (Z.max 0 (Z.of_nat i - 1))) with (i - 1)%nat by lia.
  destruct (delete i (calculators st) !! (i - 1)%nat) as [c' |] eqn:Hc'.
  - exists c'. split; reflexivity.
  - apply lookup_ge_None in Hc'. rewrite length_delete in Hc' by eauto.
    apply lookup_lt_Some in Hmember. lia.
Qed.

End RemoveTab.

(** C6: removing the only instance leaves exactly one fresh default
    arbitrage instance, whose id is the active one. Otherwise (a collection
    of two or more instances with unique ids) the remaining instances are
    the collection without the removed one, in the same order; and when
    the removed id was the active id, the new active id is that of the
    instance just before the removed one, or of the first remaining
    instance when the removed one was first (otherwise the active id
    stays). *)
Theorem handleRemoveTab_spec (t now : number) (idToRemove : jsval) (st : state) :
  (forall c : object,
     calculators st = [c] -> has_id idToRemove c = true ->
     handleRemoveTab t now idToRemove st
     = Returned {| calculators := [getNewCalculator now t 1];
                   activeTabId := get (getNewCalculator now t 1) "id" |})
  /\ (forall (i : nat) (c : object),
        unique_ids (calculators st) = true ->
        calculators st !! i = Some c -> has_id idToRemove c = true ->
        (2 <= length (calculators st))%nat ->
        exists st',
          handleRemoveTab t now idToRemove st = Returned st'
          /\ calculators st' = delete i (calculators st)
          /\ (strict_eq idToRemove (activeTabId st) = true ->
              exists c',
                activeTabId st' = get c' "id"
                /\ (i = 0%nat -> calculators st !! 1%nat = Some c')
                /\ (i <> 0%nat -> calculators st !! (i - 1)%nat = Some c'))
          /\ (strict_eq idToRemove (activeTabId st) = false ->
              activeTabId st' = activeTabId st)).
Proof.
  split.
  - intros c Hc Hid. unfold handleRemoveTab. rewrite Hc. simpl. rewrite Hid.
    reflexivity.
  - intros i c Hu Hi Hid Hlen.
    destruct (strict_eq idToRemove (activeTabId st)) eqn:Hact.
    + destruct (handleRemoveTab_active t now idToRemove st i c Hu Hi Hid Hlen Hact)
        as (c' & Hc' & Heq).
      eexists. split; [exact Heq |]. split; [reflexivity |].
      split; [| discriminate].
      intros _. exists c'. split; [reflexivity |]. split.
      * intros ->. now rewrite list_lookup_delete_ge in Hc' by lia.
      * intros Hne. now rewrite list_lookup_delete_lt in Hc' by lia.
    + eexists. split.
      * apply (handleRemoveTab_inactive t now idToRemove st i c Hu Hi Hid Hlen Hact).
      * split; [reflexivity |]. split; [discriminate | reflexivity].
Qed.

Lemma handleRemoveTab_spec_witness :
  handleRemoveTab 40 40 (JNum 10) (initialState 10 10)
  = Returned (initialState 40 40)
  /\ exists st',
       handleRemoveTab 40 40 (JNum 20) three_tabs = Returned st'
       /\ calculators st' = [getNewCalculator 10 10 1; getNewCalculator 30 30 2]
       /\ activeTabId st' = JNum 10.
Proof.
  split.
  - apply (proj1 (handleRemoveTab_spec 40 40 (JNum 10) (initialState 10 10))
             (getNewCalculator 10 10 1)); reflexivity.
  - destruct (proj2 (handleRemoveTab_spec 40 40 (JNum 20) three_tabs)
                1%nat (getNewFundingCalculator 20 1))
      as (st' & Hst' & Hcalcs & Hact);
      [reflexivity | reflexivity | reflexivity | simpl; lia |].
    exists st'. split; [exact Hst' |]. split; [exact Hcalcs |].
    destruct (proj1 Hact eq_refl) as (c' & Hid & _ & Hprev).
    specialize (Hprev ltac:(lia)). simpl in Hprev. injection Hprev as <-.
    exact Hid.
Defined.

Lemma filter_sublist {A} (q : A -> bool) (l : list A) : List.filter q l `sublist_of` l.
Proof.
  induction l as [| x l IH]; simpl; [constructor |].
  destruct (q x); [now apply sublist_skip | now apply sublist_cons].
Qed.

(** What keeps the rest of the collection from being empty when a member
    that is not the active one is removed. *)
Lemma remaining_survivor (idToRemove : jsval) (st : state) :
  (2 <= length (calculators st))%nat ->
  Exists (λ c, has_id idToRemove c = true) (calculators st) ->
  strict_eq idToRemove (activeTabId st) = false ->
  unique_ids (calculators st) = true \/ is_Some (activeCalculator st) ->
  exists d, d ∈ calculators st /\ has_id idToRemove d = false.
Proof.
  intros Hlen Hmem Hact [Hu | [a Ha]].
  - apply Exists_exists in Hmem as (c & Hin & Hc).
    apply list_elem_of_lookup in Hin as [i Hi].
    destruct (calculators st !! (if (i =? 0)%nat then 1 else 0)%nat) as [d |] eqn:Hd.
    + exists d. split; [eapply list_elem_of_lookup_2, Hd |].
      apply (only_member_has_id _ i c idToRemove Hu Hi Hc _ d Hd).
      destruct (Nat.eqb_spec i 0); lia.
    + apply lookup_ge_None in Hd. destruct (i =? 0)%nat; lia.
  - unfold activeCalculator in Ha. apply find_some in Ha as [Hin Hactive].
    exists a. split; [now apply list_elem_of_In |].
    destruct (has_id idToRemove a) eqn:Hrm; [| reflexivity].
    rewrite <- Hact. unfold has_id in *. symmetry.
    apply (strict_eq_trans _ (get a "id")); [now apply strict_eq_sym | exact Hactive].
Qed.

(** C10: in a collection of two or more instances that has unique ids, or
    whose active id is the id of a member, removing a member other than
    the active one leaves the active id as it was and leaves the
    instances with another id as they were, in the same order. *)
Theorem handleRemoveTab_frame (t now : number) (idToRemove : jsval) (st : state) :
  (2 <= length (calculators st))%nat ->
  Exists (λ c, has_id idToRemove c = true) (calculators st) ->
  strict_eq idToRemove (activeTabId st) = false ->
  unique_ids (calculators st) = true \/ is_Some (activeCalculator st) ->
  let remaining := List.filter (λ c, negb (has_id idToRemove c)) (calculators st) in
  handleRemoveTab t now idToRemove st
  = Returned {| calculators := remaining; activeTabId := activeTabId st |}
  /\ remaining `sublist_of` calculators st
  /\ (forall d, d ∈ calculators st -> has_id idToRemove d = false -> d ∈ remaining)
  /\ (forall i c, unique_ids (calculators st) = true ->
        calculators st !! i = Some c -> has_id idToRemove c = true ->
        remaining = delete i (calculators st)).
Proof.
  intros Hlen Hmem Hact Hok remaining.
  assert (Hkeep : forall d, d ∈ calculators st -> has_id idToRemove d = false ->
                            d ∈ remaining).
  { intros d Hin Hd. apply list_elem_of_In, filter_In.
    split; [now apply list_elem_of_In | now rewrite Hd]. }
  split; [| split; [| split]].
  - destruct (remaining_survivor idToRemove st Hlen Hmem Hact Hok) as (d & Hin & Hd).
    unfold handleRemoveTab. fold remaining. rewrite Hact.
    destruct remaining as [| r rs] eqn:Hrem; [| reflexivity].
    specialize (Hkeep d Hin Hd). inversion Hkeep.
  - apply filter_sublist.
  - exact Hkeep.
  - intros i c Hu Hi Hc. apply (filter_only _ _ i c Hi Hc).
    now apply (only_member_has_id _ i c).
Qed.

Lemma handleRemoveTab_frame_witness :
  handleRemoveTab 40 40 (JNum 30) three_tabs
  = Returned {| calculators := [getNewCalculator 10 10 1; getNewFundingCalculator 20 1];
                activeTabId := JNum 20 |}.
Proof.
  apply (handleRemoveTab_frame 40 40 (JNum 30) three_tabs).
  - simpl. lia.
  - apply Exists_exists. exists (getNewCalculator 30 30 2). split; [| reflexivity].
    apply list_elem_of_lookup. exists 2%nat. reflexivity.
  - reflexivity.
  - left. reflexivity.
Defined.

(** ** The load-time merge *)

Lemma mapM_returned {A B} (f : A -> outcome B) (g : A -> B) (l : list A) :
  (forall x, f x = Returned (g x)) -> mapM f l = Returned (map g l).
Proof.
  intros H. induction l as [| x l IH]; [reflexivity |].
  change (mapM f (x :: l)) with (f x ≫= λ y, mapM f l ≫= λ k, mret (y :: k)).
  rewrite H, IH. reflexivity.
Qed.

Lemma mergeCalculators_overlay (cloudSettings localSettings : settings)
    (cloudCalcs localCalcs : list object) :
  settings_calculators cloudSettings = Some cloudCalcs ->
  settings_calculators localSettings = Some localCalcs ->
  mergeCalculators cloudSettings localSettings
  = Returned (map (overlay localCalcs) cloudCalcs).
Proof.
  intros Hc Hl. unfold mergeCalculators. rewrite Hc, Hl.
  apply mapM_returned. reflexivity.
Qed.

(** In the merged instance the fields of the local one win. *)
Lemma overlay_fields (localCalcs : list object) (remote : object) :
  match List.find (has_id (get remote "id")) localCalcs with
  | Some localMatch =>
      In localMatch localCalcs
      /\ strict_eq (get localMatch "id") (get remote "id") = true
      /\ forall k, overlay localCalcs remote !! k
                   = match localMatch !! k with
                     | Some v => Some v
                     | None => remote !! k
                     end
  | None => overlay localCalcs remote = remote
  end.
Proof.
  unfold overlay.
  destruct (List.find (has_id (get remote "id")) localCalcs) as [m |] eqn:Hfind;
    [| reflexivity].
  apply find_some in Hfind as [Hin Hid]. repeat split; [exact Hin | exact Hid |].
  intros k. rewrite lookup_union. destruct (m !! k), (remote !! k); reflexivity.
Qed.

(** A field the persisted instance lacks gets the value of the template. *)
Lemma migrate_backfills (now : number) (calc : object) (k : string) (v : jsval) :
  defaultState now calc !! k = Some v -> calc !! k = None ->
  migrate now calc !! k = Some v.
Proof.
  intros Hdef Hcalc. unfold migrate, spread.
  rewrite lookup_union, !lookup_obj_cons, lookup_obj_nil, lookup_union, Hcalc, Hdef.
  destruct (decide ("type" = k)) as [<- | Htype].
  - revert Hdef. unfold defaultState, get. rewrite Hcalc.
    change (getNewCalculator now 0 0 !! "type") with (Some (JStr "arbitrage")).
    intros [= <-]. reflexivity.
  - destruct (decide ("log" = k)) as [<- | Hlog]; [| reflexivity].
    revert Hdef. unfold defaultState, get at 2. rewrite Hcalc.
    destruct (strict_eq (get calc "type") (JStr "funding")).
    + change (getNewFundingCalculator 0 0 !! "log") with (Some (JArr [])).
      intros [= <-]. reflexivity.
    + change (getNewCalculator now 0 0 !! "log") with (@None jsval).
      discriminate.
Qed.

(** A persisted field other than [type] and [log] is kept. *)
Lemma migrate_keeps (now : number) (calc : object) (k : string) (v : jsval) :
  calc !! k = Some v -> k <> "type" -> k <> "log" ->
  migrate now calc !! k = Some v.
Proof.
  intros Hcalc Htype Hlog. unfold migrate, spread.
  rewrite lookup_union, !lookup_obj_cons, lookup_obj_nil.
  repeat (case_decide; [congruence |]).
  rewrite lookup_union, Hcalc. simpl. destruct (defaultState now calc !! k); reflexivity.
Qed.

(** C1, as the code has it: when both snapshots exist and carry calculator
    lists, the remote one not empty, the collection after the load is the
    remote list in which each instance has the first local instance of the
    same id laid over it (local fields win; local-only instances do not
    appear), every instance then backfilled from the template of its
    variant. When the remote list is empty, the state in memory is kept
    as it is, whatever the local snapshot. Remote [{id:1,name:"A"}] with
    local [{id:1,name:"B"}] and [{id:2,name:"C"}] merge to
    [{id:1,name:"B"}]. *)
Theorem loadSettings_merge (clock : nat -> number)
    (cloudSettings localSettings : settings) (st : state)
    (localCalcs : list object) :
  settings_calculators localSettings = Some localCalcs ->
  (forall (first : object) (rest : list object),
     settings_calculators cloudSettings = Some (first :: rest) ->
     loadSettings clock (Some cloudSettings) (Some localSettings) st
     = Returned
         {| calculators :=
              imap (λ i calc, migrate (clock i) calc)
                   (map (overlay localCalcs) (first :: rest));
            activeTabId :=
              or_else (settings_activeTabId cloudSettings)
                      (get (migrate (clock O) (overlay localCalcs first)) "id") |})
  /\ (settings_calculators cloudSettings = Some [] ->
      forall anyLocal : option settings,
        loadSettings clock (Some cloudSettings) anyLocal st = Returned st)
  /\ (forall remote : object,
        match List.find (has_id (get remote "id")) localCalcs with
        | Some localMatch =>
            forall k, overlay localCalcs remote !! k
                      = match localMatch !! k with
                        | Some v => Some v
                        | None => remote !! k
                        end
        | None => overlay localCalcs remote = remote
        end)
  /\ (forall now calc k v,
        defaultState now calc !! k = Some v -> calc !! k = None ->
        migrate now calc !! k = Some v)
  /\ (forall now calc k v,
        calc !! k = Some v -> k <> "type" -> k <> "log" ->
        migrate now calc !! k = Some v)
  /\ mergeCalculators
       {| settings_calculators :=
            Some [obj [("id", JNum 1); ("name", JStr "A")]];
          settings_activeTabId := JUndefined |}
       {| settings_calculators :=
            Some [obj [("id", JNum 1); ("name", JStr "B")];
                  obj [("id", JNum 2); ("name", JStr "C")]];
          settings_activeTabId := JUndefined |}
     = Returned [obj [("id", JNum 1); ("name", JStr "B")]].
Proof.
  intros Hlocal. split; [| split; [| split; [| split; [| split]]]].
  - intros first rest Hcloud. unfold loadSettings.
    rewrite (mergeCalculators_overlay _ _ _ _ Hcloud Hlocal). reflexivity.
  - intros Hcloud anyLocal. unfold loadSettings, mergeCalculators.
    destruct anyLocal; rewrite Hcloud; reflexivity.
  - intros remote. pose proof (overlay_fields localCalcs remote) as H.
    destruct (List.find _ _); [apply H | exact H].
  - apply migrate_backfills.
  - apply migrate_keeps.
  - vm_compute. reflexivity.
Qed.

Lemma loadSettings_merge_witness :
  exists st',
    loadSettings (λ _, 5) (Some remote_snapshot) (Some local_snapshot)
                 (initialState 9 9) = Returned st'
    /\ activeTabId st' = JNum 1
    /\ map (λ c, (get c "id", get c "name", get c "openingExch1", get c "type",
                  get c "totalCoins", get c "showAverage"))
           (calculators st')
       = [(JNum 1, JStr "B", JStr "7", JStr "arbitrage", JStr "", JBool false)].
Proof.
  eexists. split.
  - apply (proj1 (loadSettings_merge (λ _, 5) remote_snapshot local_snapshot
                    (initialState 9 9)
                    [obj [("id", JNum 1); ("name", JStr "B")];
                     obj [("id", JNum 2); ("name", JStr "C")]] eq_refl)
             (obj [("id", JNum 1); ("name", JStr "A"); ("openingExch1", JStr "7")])
             []).
    reflexivity.
  - split; vm_compute; reflexivity.
Defined.

(** C1 as stated fails when the remote list is empty: the collection is
    not the (empty) list computed from it, the one in memory stays. *)
Lemma loadSettings_empty_remote :
  let cloudSettings := {| settings_calculators := Some [];
                          settings_activeTabId := JUndefined |} in
  loadSettings (λ _, 5) (Some cloudSettings) (Some local_snapshot) (initialState 9 9)
  = Returned (initialState 9 9)
  /\ mergeCalculators cloudSettings local_snapshot = Returned []
  /\ calculators (initialState 9 9) <> [].
Proof. repeat split; try (vm_compute; reflexivity). discriminate. Qed.

(** ** The invariant of the tab store *)

Section Invariant.

Lemma valid_resolves (st : state) :
  valid st -> calculators st <> [] /\ is_Some (activeCalculator st).
Proof.
  intros (Hne & _ & Hex). split; [exact Hne |].
  unfold activeCalculator.
  destruct (List.find (has_id (activeTabId st)) (calculators st)) eqn:Hfind; [eauto |].
  apply Exists_exists in Hex as (c & Hin & Hc).
  apply list_elem_of_In in Hin.
  rewrite (find_none _ _ Hfind c Hin) in Hc. discriminate.
Qed.

Lemma number_proper (x : number) : isNaN x = false -> strict_eq (JNum x) (JNum x) = true.
Proof. unfold isNaN. simpl. now intros ->%negb_false_iff. Qed.

Lemma number_id_proper (c : object) : number_id c = true -> proper c.
Proof.
  unfold number_id, proper, has_id, get.
  destruct (c !! "id") as [[] |]; try discriminate.
  intros H%negb_true_iff. now apply number_proper.
Qed.

Lemma valid_initial (t now : number) : isNaN t = false -> valid (initialState t now).
Proof.
  intros Ht. unfold valid, initialState. simpl. split; [discriminate |].
  split; constructor; try constructor; now apply number_proper.
Qed.

(** Handlers that rewrite instances without touching their ids. *)
Lemma valid_map (f : object -> object) (st : state) :
  (forall c, get (f c) "id" = get c "id") ->
  valid st ->
  valid {| calculators := map f (calculators st); activeTabId := activeTabId st |}.
Proof.
  intros Hf (Hne & Hproper & Hex). unfold valid. simpl. split; [| split].
  - destruct (calculators st); [congruence | discriminate].
  - apply Forall_fmap. eapply Forall_impl; [exact Hproper |].
    intros c Hc. unfold proper, has_id in *. simpl. now rewrite Hf.
  - apply Exists_fmap. eapply Exists_impl; [exact Hex |].
    intros c Hc. unfold has_id in *. simpl. now rewrite Hf.
Qed.

Lemma valid_rename (id : jsval) (newName : string) (st : state) :
  valid st -> valid (handleRenameTab id newName st).
Proof.
  apply valid_map. intros c. destruct (has_id id c); [| reflexivity].
  apply get_spread_r. reflexivity.
Qed.

Lemma valid_update (partialState : object) (st : state) :
  partialState !! "id" = None -> valid st ->
  valid (handleUpdateInstance partialState st).
Proof.
  intros Hp. apply valid_map. intros c.
  destruct (has_id (activeTabId st) c); [| reflexivity].
  now apply get_spread_r.
Qed.

Lemma valid_clear (now : number) (st : state) :
  valid st -> valid (handleClearActiveTabFields now st).
Proof.
  apply valid_map. intros c.
  destruct (has_id (activeTabId st) c); [| reflexivity].
  destruct (strict_eq (get c "type") (JStr "funding"));
    apply get_spread_r; reflexivity.
Qed.

Lemma valid_select (index : nat) (st : state) : valid st -> valid (selectTab index st).
Proof.
  intros Hst. pose proof Hst as (Hne & Hproper & _). unfold selectTab.
  destruct (calculators st !! index) as [c |] eqn:Hc; [| exact Hst].
  split; [exact Hne |]. split; [exact Hproper |]. simpl.
  apply Exists_exists. exists c. split; [eapply list_elem_of_lookup_2, Hc |].
  rewrite Forall_forall in Hproper. eapply Hproper, list_elem_of_lookup_2, Hc.
Qed.

Lemma valid_append (newCalc : object) (newId : number) (st : state) :
  isNaN newId = false -> get newCalc "id" = JNum newId -> valid st ->
  valid {| calculators := calculators st ++ [newCalc]; activeTabId := JNum newId |}.
Proof.
  intros Hid Hnew (_ & Hproper & _).
  assert (Hp : has_id (JNum newId) newCalc = true).
  { unfold has_id. rewrite Hnew. now apply number_proper. }
  unfold valid. simpl. split; [| split].
  - destruct (calculators st); discriminate.
  - apply Forall_app. split; [exact Hproper |].
    constructor; [| constructor]. unfold proper. now rewrite Hnew.
  - apply Exists_app. right. now constructor.
Qed.

Lemma valid_add_arbitrage (newId now : number) (st : state) :
  isNaN newId = false -> valid st -> valid (after (AddArbitrageTab newId now) st).
Proof.
  intros Hid Hst. unfold after, handle, handleAddArbitrageTab.
  destruct (next_tab_number "arbitrage" "C " (calculators st)); simpl; [| exact Hst].
  now apply valid_append.
Qed.

Lemma valid_add_funding (newId : number) (st : state) :
  isNaN newId = false -> valid st -> valid (after (AddFundingTab newId) st).
Proof.
  intros Hid Hst. unfold after, handle, handleAddFundingTab.
  destruct (next_tab_number "funding" "FR " (calculators st)); simpl; [| exact Hst].
  now apply valid_append.
Qed.

Lemma valid_remove (t now : number) (idToRemove : jsval) (st : state) :
  isNaN t = false -> valid st -> valid (after (RemoveTab t now idToRemove) st).
Proof.
  intros Ht Hst. pose proof Hst as (Hne & Hproper & Hex).
  unfold after, handle, handleRemoveTab.
  set (remaining := List.filter (λ c, negb (has_id idToRemove c)) (calculators st)).
  assert (Hsub : forall c, c ∈ remaining -> c ∈ calculators st /\ has_id idToRemove c = false).
  { intros c Hc. apply list_elem_of_In, filter_In in Hc as [Hin Hc].
    split; [now apply list_elem_of_In | now apply negb_true_iff]. }
  assert (Hrem : Forall proper remaining).
  { apply Forall_forall. intros c Hc. apply Hsub in Hc as [Hc _].
    rewrite Forall_forall in Hproper. now apply Hproper. }
  destruct (length remaining =? 0)%nat eqn:Hlen; simpl.
  - now apply valid_initial.
  - assert (Hne' : remaining <> []).
    { intros Heq. rewrite Heq in Hlen. discriminate. }
    destruct (strict_eq idToRemove (activeTabId st)) eqn:Hact.
    + destruct (remaining !! _) as [c |] eqn:Hc; simpl; [| exact Hst].
      split; [exact Hne' |]. split; [exact Hrem |]. simpl.
      apply Exists_exists. exists c. split; [eapply list_elem_of_lookup_2, Hc |].
      rewrite Forall_forall in Hrem. apply Hrem. eapply list_elem_of_lookup_2, Hc.
    + split; [exact Hne' |]. split; [exact Hrem |]. simpl.
      apply Exists_exists in Hex as (c & Hin & Hc).
      apply Exists_exists. exists c. split; [| exact Hc].
      apply list_elem_of_In, filter_In. split; [now apply list_elem_of_In |].
      apply negb_true_iff. destruct (has_id idToRemove c) eqn:Hrm; [| reflexivity].
      rewrite <- Hact. unfold has_id in *. symmetry.
      apply (strict_eq_trans _ (get c "id")); [now apply strict_eq_sym | exact Hc].
Qed.

End Invariant.

(** ** Loading keeps the invariant *)

Section Loading.

Lemma consistent_ok (s : settings) (calcs : list object) :
  consistent s = true -> settings_calculators s = Some calcs ->
  ok_list calcs (settings_activeTabId s).
Proof.
  unfold consistent. intros H Hs. rewrite Hs in H.
  apply andb_prop in H as [Hids Hact]. split.
  - apply Forall_forall. intros c Hc. rewrite forallb_forall in Hids.
    now apply Hids, list_elem_of_In.
  - intros Ht. rewrite Ht in Hact. simpl in Hact.
    apply existsb_exists in Hact as (c & Hin & Hc).
    apply Exists_exists. exists c. split; [now apply list_elem_of_In | exact Hc].
Qed.

Lemma number_id_lookup (c : object) :
  number_id c = true -> exists x, c !! "id" = Some (JNum x).
Proof.
  unfold number_id. destruct (c !! "id") as [[] |]; try discriminate. eauto.
Qed.

Lemma migrate_id (now : number) (c : object) :
  number_id c = true -> get (migrate now c) "id" = get c "id".
Proof.
  intros (x & Hx)%number_id_lookup. unfold get.
  rewrite (migrate_keeps now c "id" (JNum x) Hx), Hx by discriminate.
  reflexivity.
Qed.

Lemma migrated_valid (clock : nat -> number) (first : object) (rest : list object)
    (active : jsval) :
  ok_list (first :: rest) active ->
  valid {| calculators := imap (λ i calc, migrate (clock i) calc) (first :: rest);
           activeTabId := or_else active (get (migrate (clock O) first) "id") |}.
Proof.
  intros [Hids Hact]. unfold valid. cbn [calculators activeTabId].
  assert (Hproper : Forall proper (imap (λ i calc, migrate (clock i) calc) (first :: rest))).
  { apply Forall_lookup_2. intros i c Hc.
    rewrite list_lookup_imap in Hc.
    destruct ((first :: rest) !! i) as [d |] eqn:Hd; [| discriminate].
    injection Hc as <-.
    assert (Hnum : number_id d = true)
      by (rewrite Forall_forall in Hids; eapply Hids, list_elem_of_lookup_2, Hd).
    unfold proper, has_id. rewrite migrate_id by exact Hnum.
    now apply number_id_proper. }
  split; [discriminate |]. split; [exact Hproper |].
  unfold or_else. destruct (truthy active) eqn:Ht.
  - apply Exists_exists in Hact as (c & Hin & Hc); [| reflexivity].
    apply list_elem_of_lookup in Hin as [i Hi].
    apply Exists_exists. exists (migrate (clock i) c). split.
    + apply list_elem_of_lookup. exists i. rewrite list_lookup_imap, Hi. reflexivity.
    + unfold has_id in *. rewrite migrate_id; [exact Hc |].
      rewrite Forall_forall in Hids. eapply Hids, list_elem_of_lookup_2, Hi.
  - apply Exists_cons_hd. apply Forall_inv in Hproper. exact Hproper.
Qed.

Lemma overlay_ok (localCalcs remoteCalcs : list object) (active : jsval) :
  Forall (λ c, number_id c = true) localCalcs ->
  ok_list remoteCalcs active ->
  ok_list (map (overlay localCalcs) remoteCalcs) active.
Proof.
  intros Hlocal [Hids Hact].
  assert (Hone : forall r, number_id r = true ->
            number_id (overlay localCalcs r) = true
            /\ get (overlay localCalcs r) "id" = get r "id"
               \/ number_id (overlay localCalcs r) = true
                  /\ strict_eq (get (overlay localCalcs r) "id") (get r "id") = true).
  { intros r Hr. unfold overlay.
    destruct (List.find (has_id (get r "id")) localCalcs) as [m |] eqn:Hfind;
      [| left; split; [exact Hr | reflexivity]].
    apply find_some in Hfind as [Hin Hm]. right.
    rewrite Forall_forall in Hlocal.
    pose proof (Hlocal m (proj2 (list_elem_of_In _ _) Hin)) as Hnum.
    destruct (number_id_lookup m Hnum) as (y & Hy).
    assert (Hu : (m ∪ r) !! "id" = Some (JNum y)) by now apply lookup_union_Some_l.
    split.
    - unfold number_id in *. rewrite Hu. now rewrite Hy in Hnum.
    - unfold has_id, get in *. rewrite Hu. now rewrite Hy in Hm. }
  split.
  - apply Forall_fmap. eapply Forall_impl; [exact Hids |].
    intros r Hr. simpl. destruct (Hone r Hr) as [[H _] | [H _]]; exact H.
  - intros Ht. apply Exists_fmap. specialize (Hact Ht).
    apply Exists_exists in Hact as (r & Hin & Hr).
    apply Exists_exists. exists r. split; [exact Hin |]. simpl.
    rewrite Forall_forall in Hids.
    destruct (Hone r (Hids r Hin)) as [[_ H] | [_ H]]; unfold has_id in *.
    + now rewrite H.
    + now apply (strict_eq_trans _ (get r "id")).
Qed.

Lemma valid_load (clock : nat -> number) (cloudSettings localSettings : option settings)
    (st : state) :
  consistent_opt cloudSettings = true -> consistent_opt localSettings = true ->
  valid st -> valid (after (Load clock cloudSettings localSettings) st).
Proof.
  intros Hcloud Hlocal Hst. unfold after, handle, loadSettings.
  destruct cloudSettings as [c |], localSettings as [l |]; simpl in *.
  - destruct (settings_calculators c) as [rs |] eqn:Hrs.
    + destruct (settings_calculators l) as [ls |] eqn:Hls.
      * rewrite (mergeCalculators_overlay c l rs ls Hrs Hls). simpl.
        destruct rs as [| r rs]; [exact Hst |]. simpl.
        apply (migrated_valid clock (overlay ls r) (map (overlay ls) rs)).
        apply (overlay_ok ls (r :: rs)).
        -- apply (consistent_ok l ls Hlocal Hls).
        -- apply (consistent_ok c (r :: rs) Hcloud Hrs).
      * unfold mergeCalculators. rewrite Hrs, Hls.
        destruct rs as [| r rs]; exact Hst.
    + unfold mergeCalculators. rewrite Hrs. exact Hst.
  - destruct (settings_calculators c) as [[| r rs] |] eqn:Hrs; simpl; try exact Hst.
    apply migrated_valid, (consistent_ok c (r :: rs) Hcloud Hrs).
  - destruct (settings_calculators l) as [[| r rs] |] eqn:Hrs; simpl; try exact Hst.
    apply migrated_valid, (consistent_ok l (r :: rs) Hlocal Hrs).
  - exact Hst.
Qed.

Lemma reachable_is_valid (st : state) : reachable st -> valid st.
Proof.
  induction 1 as [t now Ht | e st _ IH Hadm].
  - now apply valid_initial.
  - destruct e; simpl in Hadm.
    + apply andb_prop in Hadm as [Hc Hl]. now apply valid_load.
    + apply valid_add_arbitrage; [now apply negb_true_iff | exact IH].
    + apply valid_add_funding; [now apply negb_true_iff | exact IH].
    + apply valid_remove; [now apply negb_true_iff | exact IH].
    + now apply valid_rename.
    + apply valid_update; [now apply bool_decide_eq_true in Hadm | exact IH].
    + now apply valid_clear.
    + now apply valid_select.
Qed.

End Loading.

(** C7, as the code has it: in every state the component reaches from its
    initial state by loads of snapshots that are consistent in themselves
    and by tab operations (add, remove, rename, update, clear, select),
    the collection is not empty and the active id resolves to a member. *)
Theorem reachable_resolves (st : state) :
  reachable st -> calculators st <> [] /\ is_Some (activeCalculator st).
Proof. intros H. apply valid_resolves, reachable_is_valid, H. Qed.

Lemma reachable_resolves_witness :
  let st := foldl (λ st e, after e st) (initialState 1 1) session in
  calculators st <> [] /\ is_Some (activeCalculator st).
Proof.
  apply reachable_resolves. unfold session. simpl foldl.
  repeat (apply reachable_after; [| reflexivity]).
  apply reachable_initial. reflexivity.
Defined.

(** C7 as stated fails on a load: [loadSettings] takes the [activeTabId]
    of the snapshot as it is, so a snapshot whose [activeTabId] is not the
    id of any of its calculators leaves an active id that resolves to no
    member. *)
Lemma loadSettings_dangling_active :
  let snapshot :=
    {| settings_calculators :=
         Some [obj [("id", JNum 1); ("type", JStr "arbitrage"); ("name", JStr "C 1")]];
       settings_activeTabId := JNum 2 |} in
  let st := after (Load (λ _, 5) None (Some snapshot)) (initialState 9 9) in
  map (λ c, get c "id") (calculators st) = [JNum 1]
  /\ activeTabId st = JNum 2
  /\ activeCalculator st = None.
Proof. repeat split; vm_compute; reflexivity. Qed.

(** * Further properties *)

(** ** The tab store beyond the claims *)

Section RemoveAnyTab.

Variables (idToRemove : jsval).

(** The instances before the first holder of the id all survive. *)
Lemma findIndex_remaining (calcs : list object) :
  (findIndex (has_id idToRemove) calcs
   <= Z.of_nat (length (List.filter (λ c, negb (has_id idToRemove c)) calcs)))%Z.
Proof.
  induction calcs as [| c calcs IH]; simpl; [lia |].
  destruct (has_id idToRemove c); simpl; [lia |].
  destruct (Z.ltb_spec (findIndex (has_id idToRemove) calcs) 0); lia.
Qed.

End RemoveAnyTab.

(** X1: whatever the state and the id, [handleRemoveTab] returns (the
    index [max(0, currentTabIndex - 1)] is always within the remaining
    instances) and the collection it leaves is not empty. *)
Theorem handleRemoveTab_total (t now : number) (idToRemove : jsval) (st : state) :
  exists st', handleRemoveTab t now idToRemove st = Returned st'
              /\ calculators st' <> [].
Proof.
  unfold handleRemoveTab.
  pose proof (findIndex_remaining idToRemove (calculators st)) as Hidx.
  set (remaining := List.filter _ (calculators st)) in *.
  destruct (Nat.eqb_spec (length remaining) 0) as [Hlen | Hlen].
  - eexists. split; [reflexivity | discriminate].
  - assert (Hne : remaining <> []) by (intros E; now rewrite E in Hlen).
    destruct (strict_eq idToRemove (activeTabId st)).
    + destruct (remaining !! _) as [c |] eqn:Hc.
      * eexists. split; [reflexivity | exact Hne].
      * apply lookup_ge_None in Hc. lia.
    + eexists. split; [reflexivity | exact Hne].
Qed.

(** A patch that does not carry the key leaves the field. *)
Lemma has_id_spread (id : jsval) (calc over : object) :
  over !! "id" = None -> has_id id (spread calc over) = has_id id calc.
Proof. intros H. unfold has_id. now rewrite get_spread_r. Qed.

Lemma spread_spread (calc p1 p2 : object) :
  spread (spread calc p1) p2 = spread calc (spread p1 p2).
Proof. unfold spread. now rewrite (assoc_L (∪)). Qed.

(** X2: renaming a tab changes the [name] of the instances that carry the
    id and nothing else: the positions, the active id, every other field
    and every other instance stay. *)
Theorem handleRenameTab_frame (id : jsval) (newName : string) (st : state)
    (i : nat) (c : object) :
  calculators st !! i = Some c ->
  activeTabId (handleRenameTab id newName st) = activeTabId st
  /\ length (calculators (handleRenameTab id newName st)) = length (calculators st)
  /\ exists c', calculators (handleRenameTab id newName st) !! i = Some c'
       /\ (forall k, k <> "name" -> c' !! k = c !! k)
       /\ (has_id id c = true -> c' !! "name" = Some (JStr newName))
       /\ (has_id id c = false -> c' = c).
Proof.
  intros Hi. unfold handleRenameTab. simpl.
  split; [reflexivity |]. split; [apply length_map |].
  rewrite list_lookup_fmap, Hi.
  exists (if has_id id c then spread c (obj [("name", JStr newName)]) else c).
  split; [reflexivity |].
  destruct (has_id id c); (split; [| split]); try discriminate; try reflexivity.
  - intros k Hk. unfold spread. rewrite lookup_union_r; [reflexivity |].
    rewrite lookup_obj_cons, lookup_obj_nil. case_decide; congruence.
  - intros _. unfold spread. apply lookup_union_Some_l. reflexivity.
Qed.

Lemma handleRenameTab_frame_witness :
  exists c', calculators (handleRenameTab (JNum 20) "BTC" three_tabs) !! 1%nat = Some c'
    /\ c' !! "name" = Some (JStr "BTC")
    /\ c' !! "id" = Some (JNum 20).
Proof.
  destruct (handleRenameTab_frame (JNum 20) "BTC" three_tabs 1
              (getNewFundingCalculator 20 1) eq_refl)
    as (_ & _ & c' & Hc' & Hkeep & Hname & _).
  exists c'. split; [exact Hc' |]. split.
  - apply Hname. vm_compute. reflexivity.
  - rewrite Hkeep by discriminate. reflexivity.
Defined.

(** X3: renaming the same tab twice leaves what the last renaming alone
    leaves. *)
Theorem handleRenameTab_twice (id : jsval) (first last : string) (st : state) :
  handleRenameTab id last (handleRenameTab id first st) = handleRenameTab id last st.
Proof.
  unfold handleRenameTab. simpl. f_equal.
  rewrite <- list_fmap_compose. apply list_fmap_ext. intros _ c _. simpl.
  destruct (has_id id c) eqn:Hid.
  - rewrite has_id_spread, Hid by reflexivity.
    rewrite spread_spread. f_equal.
  - now rewrite Hid.
Qed.

Lemma handleUpdateInstance_compose (p1 p2 : object) (st : state) :
  p1 !! "id" = None ->
  handleUpdateInstance p2 (handleUpdateInstance p1 st)
  = handleUpdateInstance (spread p1 p2) st.
Proof.
  intros Hp1. unfold handleUpdateInstance. simpl. f_equal.
  rewrite <- list_fmap_compose. apply list_fmap_ext. intros _ c _. simpl.
  destruct (has_id (activeTabId st) c) eqn:Hid.
  - rewrite has_id_spread, Hid by exact Hp1. apply spread_spread.
  - now rewrite Hid.
Qed.

(** X4: two updates of the active instance in a row store what one update
    with the second patch laid over the first stores, as long as the first
    does not carry an [id]. *)
Theorem handleUpdateInstance_twice (p1 p2 : object) (st : state) :
  p1 !! "id" = None ->
  handleUpdateInstance p2 (handleUpdateInstance p1 st)
  = handleUpdateInstance (spread p1 p2) st.
Proof. apply handleUpdateInstance_compose. Qed.

Lemma handleUpdateInstance_twice_witness :
  handleUpdateInstance (obj [("openingExch2", JStr "2")])
    (handleUpdateInstance (obj [("openingExch1", JStr "1")]) three_tabs)
  = handleUpdateInstance
      (spread (obj [("openingExch1", JStr "1")]) (obj [("openingExch2", JStr "2")]))
      three_tabs.
Proof. apply handleUpdateInstance_twice. reflexivity. Defined.

(** X5: clearing the active tab gives the input fields of its variant the
    values they have in a fresh instance of that variant, and touches
    nothing else: the other fields of the instance (id, name, type,
    leverage, interval, exchange names, the average toggle), the other
    instances and the active id stay. *)
Theorem handleClearActiveTabFields_frame (now : number) (st : state)
    (i : nat) (c : object) :
  calculators st !! i = Some c ->
  activeTabId (handleClearActiveTabFields now st) = activeTabId st
  /\ exists c', calculators (handleClearActiveTabFields now st) !! i = Some c'
       /\ (forall k, k ∉ cleared_fields c -> c' !! k = c !! k)
       /\ (has_id (activeTabId st) c = true ->
           forall k, k ∈ cleared_fields c -> c' !! k = defaultState now c !! k)
       /\ (has_id (activeTabId st) c = false -> c' = c).
Proof.
  intros Hi. split; [reflexivity |].
  unfold handleClearActiveTabFields. cbn [calculators].
  change (map ?f ?l) with (f <$> l). rewrite list_lookup_fmap, Hi.
  eexists. split; [reflexivity |]. cbv beta.
  unfold cleared_fields, defaultState.
  destruct (has_id (activeTabId st) c); [| now repeat split].
  destruct (strict_eq (get c "type") (JStr "funding"));
    (split; [| split]); try discriminate.
  - intros k Hk. unfold spread. apply lookup_union_r.
    rewrite !lookup_obj_cons, lookup_obj_nil.
    repeat (case_decide; [subst k; exfalso; apply Hk; set_solver |]). reflexivity.
  - intros _ k Hk. unfold spread.
    repeat (apply elem_of_cons in Hk as [-> | Hk];
            [erewrite lookup_union_Some_l by reflexivity; reflexivity |]).
    now apply elem_of_nil in Hk.
  - intros k Hk. unfold spread. apply lookup_union_r.
    rewrite !lookup_obj_cons, lookup_obj_nil.
    repeat (case_decide; [subst k; exfalso; apply Hk; set_solver |]). reflexivity.
  - intros _ k Hk. unfold spread.
    repeat (apply elem_of_cons in Hk as [-> | Hk];
            [erewrite lookup_union_Some_l by reflexivity; reflexivity |]).
    now apply elem_of_nil in Hk.
Qed.

Lemma handleClearActiveTabFields_frame_witness :
  exists c', calculators
               (handleClearActiveTabFields 9
                  (handleUpdateInstance (obj [("positionSize", JStr "1000")]) three_tabs))
             !! 1%nat = Some c'
    /\ c' !! "positionSize" = Some (JStr "")
    /\ c' !! "name" = Some (JStr "FR 1").
Proof.
  destruct (handleClearActiveTabFields_frame 9
              (handleUpdateInstance (obj [("positionSize", JStr "1000")]) three_tabs) 1
              (spread (getNewFundingCalculator 20 1) (obj [("positionSize", JStr "1000")]))
              eq_refl)
    as (_ & c' & Hc' & Hkeep & Hreset & _).
  exists c'. split; [exact Hc' |]. split.
  - rewrite Hreset; [reflexivity | vm_compute; reflexivity |].
    eapply bool_decide_unpack. vm_compute. exact I.
  - rewrite Hkeep; [reflexivity |].
    eapply bool_decide_unpack. vm_compute. exact I.
Defined.

(** *** The structure fingerprint *)

Lemma mapM_fmap_ext {A B} (f : A -> outcome B) (g : A -> A) (l : list A) :
  (forall x, f (g x) = f x) -> mapM f (map g l) = mapM f l.
Proof.
  intros H. induction l as [| x l IH]; [reflexivity |].
  change (map g (x :: l)) with (g x :: map g l).
  change (mapM f (g x :: map g l))
    with (f (g x) ≫= λ y, mapM f (map g l) ≫= λ k, mret (y :: k)).
  change (mapM f (x :: l)) with (f x ≫= λ y, mapM f l ≫= λ k, mret (y :: k)).
  now rewrite H, IH.
Qed.

Lemma structure_entry_spread (calc over : object) :
  over !! "id" = None -> over !! "name" = None -> over !! "type" = None ->
  structure_entry (spread calc over) = structure_entry calc.
Proof.
  intros Hid Hname Htype. unfold structure_entry.
  now rewrite !get_spread_r.
Qed.

(** X6: an update of the active instance that carries none of [id],
    [name] and [type] (every edit of an input field, the funding log, the
    average toggle) leaves the structure fingerprint as it was, so the
    effect that saves to the cloud, which depends on the fingerprint and
    not on the collection, does not run for it. *)
Theorem calculatorStructure_update (partialState : object) (st : state) :
  partialState !! "id" = None ->
  partialState !! "name" = None ->
  partialState !! "type" = None ->
  calculatorStructure (handleUpdateInstance partialState st) = calculatorStructure st.
Proof.
  intros Hid Hname Htype. unfold calculatorStructure, handleUpdateInstance.
  cbn [calculators]. f_equal. apply mapM_fmap_ext. intros c.
  destruct (has_id (activeTabId st) c); [| reflexivity].
  now apply structure_entry_spread.
Qed.

Lemma calculatorStructure_update_witness :
  calculatorStructure
    (handleUpdateInstance (obj [("positionSize", JStr "1000")]) three_tabs)
  = Returned "10-C 1-arbitrage,20-FR 1-funding,30-C 2-arbitrage".
Proof.
  rewrite calculatorStructure_update by reflexivity. vm_compute. reflexivity.
Defined.

(** X7: clearing the fields of the active tab leaves the structure
    fingerprint as it was. *)
Theorem calculatorStructure_clear (now : number) (st : state) :
  calculatorStructure (handleClearActiveTabFields now st) = calculatorStructure st.
Proof.
  unfold calculatorStructure, handleClearActiveTabFields.
  cbn [calculators]. f_equal. apply mapM_fmap_ext. intros c.
  destruct (has_id (activeTabId st) c); [| reflexivity].
  destruct (strict_eq (get c "type") (JStr "funding"));
    now apply structure_entry_spread.
Qed.

(** ** History and funding log beyond the caps *)

(** X8: after any sequence of calls of [addToHistory] the History holds
    the items of the calls whose result is stored, the newest first, cut
    to the 50 newest. *)
Theorem history_after_newest_first (calls : list history_call) :
  history_after calls
  = take 50 (rev (map item_of (List.filter (λ c, stored_result (call_result c)) calls))).
Proof.
  unfold history_after.
  rewrite <- (app_nil_r (rev _)).
  rewrite <- (capped_newest_first _ item_of 50 calls []) by (simpl; lia).
  apply foldl_pointwise. intros h c. unfold addCall, addToHistory, stored_result, item_of.
  destruct (String.eqb (call_result c) "" || String.eqb (call_result c) "0.00"
            || String.eqb (call_result c) "0.0000"); reflexivity.
Qed.

(** X9: after any sequence of presses of the log button the log of a
    funding instance holds an entry for each press made while the net
    profit was not zero, the newest first, cut to the 100 newest. *)
Theorem log_after_newest_first (presses : list log_press) :
  log_after presses = take 100 (rev (map entry_of (List.filter logged presses))).
Proof.
  unfold log_after.
  rewrite <- (app_nil_r (rev _)).
  rewrite <- (capped_newest_first _ entry_of 100 presses []) by (simpl; lia).
  apply foldl_pointwise. intros log p. unfold logPeriod, handleLogPeriod, logged, entry_of.
  destruct (netProfitUSD (press_calc p) =? 0); reflexivity.
Qed.

Lemma filter_none {A} (q : A -> bool) (l : list A) :
  Forall (λ y, q y = false) l -> List.filter (λ y, negb (q y)) l = l.
Proof.
  intros H. apply filter_all. eapply Forall_impl; [exact H |].
  intros y Hy. simpl. now rewrite Hy.
Qed.

(** X10: deleting from the History the item that was just added gives
    back the History as it was when it held fewer than 50 items; when it
    was full, its oldest item is gone. In both cases what is left is the
    first 49 items of the old History. The precondition is that the
    result was one that is stored and that no older item carries the id
    (the clock reading) of the new one. *)
Theorem handleDeleteHistory_added (now : number) (timestamp type : string)
    (inputs : jsval) (result tabName : string) (history : list object) :
  stored_result result = true ->
  isNaN now = false ->
  Forall (λ item, has_id (JNum now) item = false) history ->
  handleDeleteHistory (JNum now)
    (addToHistory now timestamp type inputs result tabName history)
  = take 49 history.
Proof.
  intros Hres Hnow Hfresh. unfold addToHistory, stored_result in *.
  apply negb_true_iff in Hres. rewrite Hres.
  change (take 50 (?x :: ?l)) with (x :: take 49 l).
  unfold handleDeleteHistory. simpl.
  change (get (newItem now timestamp type inputs result tabName) "id") with (JNum now).
  rewrite number_proper by exact Hnow. simpl.
  apply (filter_none (has_id (JNum now))).
  now apply Forall_take.
Qed.

Lemma handleDeleteHistory_added_witness :
  handleDeleteHistory (JNum 2)
    (addToHistory 2 "t2" "Abertura" JNull "2.00" "C 1"
       [newItem 1 "t1" "Abertura" JNull "1.00" "C 1"])
  = [newItem 1 "t1" "Abertura" JNull "1.00" "C 1"].
Proof.
  apply (handleDeleteHistory_added 2 "t2" "Abertura" JNull "2.00" "C 1"
           [newItem 1 "t1" "Abertura" JNull "1.00" "C 1"]).
  - reflexivity.
  - vm_compute. reflexivity.
  - repeat constructor.
Defined.

Lemma without_id_none (id : jsval) (log : list jsval) :
  Forall (λ entry, entry_without id entry = true) log ->
  without_id id log = Returned log.
Proof.
  induction 1 as [| entry log Hentry _ IH]; [reflexivity |].
  simpl. destruct entry as [| | | | | | o]; try discriminate.
  simpl. rewrite IH. simpl.
  unfold entry_without, has_id in Hentry. apply negb_true_iff in Hentry.
  now rewrite Hentry.
Qed.

(** X11: removing from the funding log the entry that a press of the log
    button just put there leaves the first 99 entries of the log as it
    was before the press, and does not throw. The precondition is that
    the press logged (net profit not zero) and that the older entries are
    objects with other ids. *)
Theorem handleRemoveLogEntry_logged (p : log_press) (log : list jsval) :
  logged p = true ->
  isNaN (press_now p) = false ->
  Forall (λ entry, entry_without (JNum (press_now p)) entry = true) log ->
  handleRemoveLogEntry (JNum (press_now p)) (logPeriod log p)
  = Returned (obj [("log", JArr (take 99 log))]).
Proof.
  intros Hlogged Hnow Hfresh. unfold logged in Hlogged.
  apply negb_true_iff in Hlogged.
  unfold logPeriod, handleLogPeriod. rewrite Hlogged.
  change (get (obj [("log", JArr ?l)]) "log") with (JArr l). cbv iota.
  change (take 100 (?x :: ?l)) with (x :: take 99 l).
  unfold handleRemoveLogEntry. simpl.
  rewrite (without_id_none _ (take 99 log)) by now apply Forall_take.
  simpl.
  change (get _ "id") with (JNum (press_now p)).
  rewrite number_proper by exact Hnow. reflexivity.
Qed.

Lemma handleRemoveLogEntry_logged_witness :
  handleRemoveLogEntry (JNum 2)
    (logPeriod [newLogEntry 1 "t1" (calculations "1000" "10" "8" "0.01" "0.005")]
       {| press_now := 2; press_timestamp := "t2";
          press_calc := calculations "1000" "10" "8" "0.02" "0.005" |})
  = Returned (obj [("log", JArr [newLogEntry 1 "t1"
                                   (calculations "1000" "10" "8" "0.01" "0.005")])]).
Proof.
  apply (handleRemoveLogEntry_logged
           {| press_now := 2; press_timestamp := "t2";
              press_calc := calculations "1000" "10" "8" "0.02" "0.005" |}
           [newLogEntry 1 "t1" (calculations "1000" "10" "8" "0.01" "0.005")]).
  - vm_compute. reflexivity.
  - vm_compute. reflexivity.
  - repeat constructor.
Defined.

(** ** What the save buttons store *)

Lemma calculateDifference_empty (val : string) :
  calculateDifference "" val = "0.00" /\ calculateDifference val "" = "0.00".
Proof.
  unfold calculateDifference. change (isNaN (parseFloat "")) with true.
  simpl. now rewrite andb_false_r.
Qed.

(** X12: the save buttons of the opening and closing cards store the
    displayed difference whenever [addToHistory] accepts it: the checks
    that the two prices are not empty never stop a save, because an
    empty price already gives the difference ["0.00"], which is not
    stored. *)
Theorem handleSaveOpening_stores (now : number) (timestamp : string)
    (exch1 exch2 name : string) (history : list object) :
  handleSaveOpening now timestamp exch1 exch2 name history
  = addToHistory now timestamp "Abertura"
      (JObj (obj [("openingExch1", JStr exch1); ("openingExch2", JStr exch2)]))
      (calculateDifference exch1 exch2) name history
  /\ handleSaveClosing now timestamp exch1 exch2 name history
     = addToHistory now timestamp "Fechamento"
         (JObj (obj [("closingExch1", JStr exch1); ("closingExch2", JStr exch2)]))
         (calculateDifference exch1 exch2) name history.
Proof.
  assert (Hguard :
    negb (String.eqb (calculateDifference exch1 exch2) "0.00")
    && negb (String.eqb exch1 "") && negb (String.eqb exch2 "")
    = negb (String.eqb (calculateDifference exch1 exch2) "0.00")).
  { destruct (String.eqb_spec exch1 "") as [-> | _].
    - now rewrite (proj1 (calculateDifference_empty exch2)).
    - destruct (String.eqb_spec exch2 "") as [-> | _].
      + now rewrite (proj2 (calculateDifference_empty exch1)).
      + now rewrite !andb_true_r. }
  unfold handleSaveOpening, handleSaveClosing. cbv zeta. rewrite Hguard.
  unfold addToHistory.
  destruct (String.eqb (calculateDifference exch1 exch2) "0.00") eqn:Hzero; simpl.
  - now rewrite orb_true_r.
  - split; reflexivity.
Qed.

(** X13: the save button of the average-price card stores the displayed
    average exactly when the total of coins is greater than zero and
    [addToHistory] accepts the average; the average shown for a negative
    total of coins is never stored. The purchases stored with it are the
    rows that are not empty. *)
Theorem handleSaveAverage_stores (now : number) (timestamp : string)
    (totalCoins : string) (purchases : list Purchase) (name : string)
    (history : list object) :
  handleSaveAverage now timestamp totalCoins purchases name history
  = if gt (parseFloat totalCoins) 0
    then addToHistory now timestamp label_average
           (average_inputs totalCoins purchases)
           (averagePrice totalCoins purchases) name history
    else history.
Proof.
  unfold handleSaveAverage. cbv zeta.
  destruct (gt (parseFloat totalCoins) 0); [| now rewrite andb_false_r].
  rewrite andb_true_r.
  destruct (gt (totalPurchases purchases) 0) eqn:Htotal.
  - rewrite andb_true_r. unfold addToHistory.
    destruct (String.eqb (averagePrice totalCoins purchases) "0.0000"); simpl;
      [now rewrite !orb_true_r | reflexivity].
  - rewrite andb_false_r. unfold averagePrice. rewrite Htotal, andb_false_r.
    reflexivity.
Qed.

Lemma percent_in (x rest : string) :
  In "%"%char (list_ascii_of_string (x ++ String "%" rest)).
Proof. induction x as [| a x IH]; simpl; auto. Qed.

Lemma percent_result_stored (x rest : string) :
  stored_result (x ++ String "%" rest) = true.
Proof.
  unfold stored_result. apply negb_true_iff.
  pose proof (percent_in x rest) as Hin.
  repeat (apply orb_false_intro); apply String.eqb_neq; intros E;
    rewrite E in Hin; simpl in Hin; intuition discriminate.
Qed.

(** X14: the save button of the funding card stores the projection
    whenever the net profit per period is not zero: the text it makes,
    [rate% ($profit)], is never one that [addToHistory] drops. The item
    goes first and the History is cut to 50. *)
Theorem handleSaveToHistory_stores (now : number) (timestamp : string)
    (calc : projection) (positionSize shortExchangeFR longExchangeFR name : string)
    (history : list object) :
  (netProfitUSD calc =? 0) = false ->
  handleSaveToHistory now timestamp calc positionSize shortExchangeFR longExchangeFR
    name history
  = take 50
      (newItem now timestamp "Funding"
         (JObj (obj [ ("positionSize", JStr positionSize);
                      ("shortExchangeFR", JStr shortExchangeFR);
                      ("longExchangeFR", JStr longExchangeFR) ]))
         (toFixed (netProfitRate calc * 100) 4 ++ "% ($"
          ++ toFixed (netProfitUSD calc) 2 ++ ")")
         name
       :: history).
Proof.
  intros Hprofit. unfold handleSaveToHistory. rewrite Hprofit.
  unfold addToHistory.
  pose proof (percent_result_stored (toFixed (netProfitRate calc * 100) 4)
                (" ($" ++ toFixed (netProfitUSD calc) 2 ++ ")")) as Hstored.
  unfold stored_result in Hstored. apply negb_true_iff in Hstored.
  change (String "%" (" ($" ++ ?r)) with ("% ($" ++ r) in Hstored.
  now rewrite Hstored.
Qed.

Lemma handleSaveToHistory_stores_witness :
  handleSaveToHistory 1 "t" (calculations "1000" "10" "8" "0.02" "0.005")
    "1000" "0.02" "0.005" "FR 1" []
  = [newItem 1 "t" "Funding"
       (JObj (obj [ ("positionSize", JStr "1000"); ("shortExchangeFR", JStr "0.02");
                    ("longExchangeFR", JStr "0.005") ]))
       "0.0150% ($0.15)" "FR 1"].
Proof.
  rewrite handleSaveToHistory_stores by (vm_compute; reflexivity).
  vm_compute. reflexivity.
Defined.

(** X15: with a position size that does not parse, or is zero, the
    funding card neither logs a period nor saves to the History. *)
Theorem no_position_nothing_stored (now : number) (timestamp : string)
    (positionSize leverage fundingInterval shortExchangeFR longExchangeFR name : string)
    (log : list jsval) (history : list object) :
  (parsed_amount positionSize =? 0) = true ->
  let calc := calculations positionSize leverage fundingInterval
                shortExchangeFR longExchangeFR in
  handleLogPeriod now timestamp calc log = None
  /\ handleSaveToHistory now timestamp calc positionSize shortExchangeFR
       longExchangeFR name history = history.
Proof.
  intros Hzero calc.
  assert (Hcalc : (netProfitUSD calc =? 0) = true).
  { unfold calc, calculations. unfold parsed_amount in Hzero. now rewrite Hzero. }
  unfold handleLogPeriod, handleSaveToHistory. now rewrite Hcalc.
Qed.

Lemma no_position_nothing_stored_witness :
  handleLogPeriod 1 "t" (calculations "abc" "10" "8" "0.02" "0.005") [] = None
  /\ handleSaveToHistory 1 "t" (calculations "abc" "10" "8" "0.02" "0.005")
       "abc" "0.02" "0.005" "FR 1" [] = [].
Proof.
  apply (no_position_nothing_stored 1 "t" "abc" "10" "8" "0.02" "0.005" "FR 1" [] []).
  vm_compute. reflexivity.
Defined.

(** ** Equal prices *)

Lemma zero_cases (x : number) (s : bool) :
  Prim2SF x = S754_zero s -> x = 0 \/ x = (-0).
Proof.
  intros H. destruct s; [right | left]; apply FloatAxioms.Prim2SF_inj;
    rewrite H; reflexivity.
Qed.

Lemma sub_self (x : number) (s : bool) m e :
  Prim2SF x = S754_finite s m e -> Prim2SF (x - x) = S754_zero false.
Proof.
  intros H. rewrite FloatAxioms.sub_spec, H. unfold SF64sub, SFsub.
  cbv zeta. now rewrite Z.sub_diag.
Qed.

(** X16: two equal prices that are finite numbers give the difference
    ["0.00"], so the save buttons store nothing for them. (Two prices
    that both read as infinite, like ["1e400"], give ["NaN"].) *)
Theorem calculateDifference_same (now : number) (timestamp val name : string)
    (history : list object) :
  isFinite (parseFloat val) = true ->
  calculateDifference val val = "0.00"
  /\ handleSaveOpening now timestamp val val name history = history
  /\ handleSaveClosing now timestamp val val name history = history.
Proof.
  intros Hfinite.
  assert (Hzero : calculateDifference val val = "0.00").
  { unfold calculateDifference. cbv zeta. unfold isFinite in Hfinite.
    apply andb_true_iff in Hfinite as [Hnan Hinf].
    rewrite Hnan. simpl. unfold strict_ne.
    destruct (parseFloat val =? 0) eqn:Hz; [reflexivity |]. simpl.
    set (x := parseFloat val) in *.
    apply negb_true_iff in Hnan, Hinf. unfold isNaN in Hnan.
    apply negb_false_iff in Hnan.
    rewrite FloatAxioms.eqb_spec in Hnan, Hinf, Hz.
    rewrite FloatAxioms.abs_spec in Hinf.
    change (Prim2SF 0) with (S754_zero false) in Hz.
    change (Prim2SF infinity) with (S754_infinity false) in Hinf.
    destruct (Prim2SF x) as [s | s | | s m e] eqn:Hx; try discriminate.
    assert (Hq : exists s', Prim2SF ((x - x) / x * 100) = S754_zero s').
    { rewrite FloatAxioms.mul_spec, FloatAxioms.div_spec, (sub_self x s m e Hx), Hx.
      eexists. reflexivity. }
    destruct Hq as [s' Hq]. apply zero_cases in Hq as [-> | ->]; reflexivity. }
  split; [exact Hzero |].
  unfold handleSaveOpening, handleSaveClosing. cbv zeta. rewrite Hzero. now split.
Qed.

Lemma calculateDifference_same_witness :
  calculateDifference "50000" "50000" = "0.00"
  /\ calculateDifference "1e400" "1e400" = "NaN".
Proof.
  split.
  - apply (calculateDifference_same 0 "" "50000" "" []). vm_compute. reflexivity.
  - vm_compute. reflexivity.
Defined.

(** ** Purchase rows *)

Section ZeroSign.

Lemma is_zero_spec (x : number) :
  (x =? 0) = true <-> exists s, Prim2SF x = S754_zero s.
Proof.
  pose proof (FloatAxioms.eqb_spec x 0) as E.
  change (Prim2SF 0) with (S754_zero false) in E.
  destruct (Prim2SF x) as [s | s | | s m e]; rewrite E; split;
    try discriminate; try (intros [s' [=]]); try (now eexists);
    try reflexivity; destruct s; discriminate.
Qed.

Lemma same_up_to_zero_sign_sym (x y : number) :
  same_up_to_zero_sign x y -> same_up_to_zero_sign y x.
Proof. intros [-> | [Hx Hy]]; [now left | now right]. Qed.

Lemma same_up_to_zero_sign_trans (x y z : number) :
  same_up_to_zero_sign x y -> same_up_to_zero_sign y z -> same_up_to_zero_sign x z.
Proof.
  intros [-> | [Hx Hy]] [-> | [Hy' Hz]]; try (now left); try (now right).
Qed.

(** Adding the zero that an empty row counts for. *)
Lemma add_zero (x : number) : same_up_to_zero_sign (x + 0) x.
Proof.
  destruct (Prim2SF x) as [s | s | | s m e] eqn:Hx.
  - right. split; apply is_zero_spec; [| now exists s].
    rewrite FloatAxioms.add_spec, Hx. change (Prim2SF 0) with (S754_zero false).
    destruct s; now eexists.
  - left. apply FloatAxioms.Prim2SF_inj. rewrite FloatAxioms.add_spec, Hx. reflexivity.
  - left. apply FloatAxioms.Prim2SF_inj. rewrite FloatAxioms.add_spec, Hx. reflexivity.
  - left. apply FloatAxioms.Prim2SF_inj. rewrite FloatAxioms.add_spec, Hx. reflexivity.
Qed.

Lemma add_same_up_to_zero_sign (x y v : number) :
  same_up_to_zero_sign x y -> same_up_to_zero_sign (x + v) (y + v).
Proof.
  intros [-> | [Hx Hy]]; [now left |].
  apply is_zero_spec in Hx as [sx Hx]. apply is_zero_spec in Hy as [sy Hy].
  destruct (Prim2SF v) as [s | s | | s m e] eqn:Hv.
  - right. split; apply is_zero_spec; rewrite FloatAxioms.add_spec, ?Hx, ?Hy, Hv;
      unfold SF64add, SFadd; [destruct sx, s | destruct sy, s];
      eexists; reflexivity.
  - left. apply FloatAxioms.Prim2SF_inj.
    rewrite !FloatAxioms.add_spec, Hx, Hy, Hv. reflexivity.
  - left. apply FloatAxioms.Prim2SF_inj.
    rewrite !FloatAxioms.add_spec, Hx, Hy, Hv. reflexivity.
  - left. apply FloatAxioms.Prim2SF_inj.
    rewrite !FloatAxioms.add_spec, Hx, Hy, Hv. reflexivity.
Qed.

Lemma gt_zero_same (x y : number) :
  same_up_to_zero_sign x y ->
  gt x 0 = gt y 0 /\ (gt y 0 = true -> x = y).
Proof.
  intros [-> | [Hx Hy]]; [now split |].
  apply is_zero_spec in Hx as [sx Hx]. apply is_zero_spec in Hy as [sy Hy].
  unfold gt. rewrite !FloatAxioms.ltb_spec, Hx, Hy.
  change (Prim2SF 0) with (S754_zero false). now split.
Qed.

End ZeroSign.

(** The total does not see the empty rows, up to the sign of a zero. *)
Lemma totalPurchases_filled_from (purchases : list Purchase) (acc acc' : number) :
  same_up_to_zero_sign acc' acc ->
  same_up_to_zero_sign
    (foldl (λ sum p, sum + entry_value p) acc' (filled purchases))
    (foldl (λ sum p, sum + entry_value p) acc purchases).
Proof.
  unfold filled.
  revert acc acc'. induction purchases as [| p ps IH]; intros acc acc' Hacc;
    simpl; [exact Hacc |].
  unfold entry_value at 3.
  destruct (String.eqb (purchase_value p) "") eqn:Hp; simpl.
  - apply IH. eapply same_up_to_zero_sign_trans; [exact Hacc |].
    apply same_up_to_zero_sign_sym, add_zero.
  - apply IH. unfold entry_value. rewrite Hp. now apply add_same_up_to_zero_sign.
Qed.

Lemma averagePrice_same_total (totalCoins : string) (ps qs : list Purchase) :
  same_up_to_zero_sign (totalPurchases ps) (totalPurchases qs) ->
  averagePrice totalCoins ps = averagePrice totalCoins qs.
Proof.
  intros H. apply gt_zero_same in H as [Hgt Heq]. unfold averagePrice.
  rewrite Hgt. destruct (gt (totalPurchases qs) 0).
  - now rewrite Heq.
  - now rewrite !andb_false_r.
Qed.

(** X17: the purchases stored with a saved average (the rows that are
    not empty) give the same average price as the rows on display: the
    empty rows do not count. *)
Theorem averagePrice_filled_rows (totalCoins : string) (purchases : list Purchase) :
  average_inputs totalCoins purchases
  = JObj (obj [ ("totalCoins", JStr totalCoins);
                ("purchases", JArr (map purchase_object (filled purchases))) ])
  /\ averagePrice totalCoins (filled purchases) = averagePrice totalCoins purchases.
Proof.
  split; [reflexivity |].
  apply averagePrice_same_total. rewrite !totalPurchases_entries.
  apply totalPurchases_filled_from. now left.
Qed.

(** X18: a new purchase row is empty, and adding it does not change the
    average price on display. *)
Theorem addPurchase_keeps_average (newId : number) (totalCoins : string)
    (purchases : list Purchase) :
  averagePrice totalCoins (addPurchase newId purchases)
  = averagePrice totalCoins purchases.
Proof.
  apply averagePrice_same_total. unfold addPurchase, totalPurchases.
  rewrite foldl_app. simpl. change (parseFloat "0") with 0. apply add_zero.
Qed.

Lemma eqb_trans_l (x y z : number) :
  (x =? z) = true -> (y =? z) = true -> (x =? y) = true.
Proof.
  rewrite !FloatAxioms.eqb_spec. intros Hx Hy.
  eapply SFeqb_trans; [exact Hx |]. now apply SFeqb_sym.
Qed.

(** Among rows with pairwise different ids at most one carries a given
    id. *)
Lemma distinct_rows_filter (purchaseId : number) (purchases : list Purchase) :
  distinct_rows purchases = true ->
  (length purchases - 1
   <= length (List.filter (λ p, strict_ne (purchase_id p) purchaseId) purchases))%nat.
Proof.
  induction purchases as [| p ps IH]; simpl; [lia |].
  intros [Hp Hps]%andb_true_iff. specialize (IH Hps).
  unfold strict_ne at 1. destruct (purchase_id p =? purchaseId) eqn:Hid; simpl; [| lia].
  rewrite filter_all; [lia |].
  rewrite forallb_forall in Hp. apply Forall_forall. intros q Hq.
  apply list_elem_of_In in Hq. specialize (Hp q Hq).
  unfold strict_ne in *. apply negb_true_iff in Hp. apply negb_true_iff.
  destruct (purchase_id q =? purchaseId) eqn:Hq'; [| reflexivity].
  now rewrite (eqb_trans_l _ _ _ Hid Hq') in Hp.
Qed.

(** X19: the delete button of a purchase row never removes the last row,
    and among rows with pairwise different ids it removes at most one. *)
Theorem removePurchase_keeps_a_row (purchaseId : number) (purchases : list Purchase) :
  purchases <> [] ->
  distinct_rows purchases = true ->
  removePurchase purchaseId purchases <> []
  /\ (length purchases - 1 <= length (removePurchase purchaseId purchases))%nat.
Proof.
  intros Hne Hdistinct. unfold removePurchase.
  destruct (Nat.ltb_spec 1 (length purchases)) as [Hlen | Hlen].
  - pose proof (distinct_rows_filter purchaseId purchases Hdistinct) as Hfilter.
    split; [| exact Hfilter].
    intros E. rewrite E in Hfilter. simpl in Hfilter. lia.
  - split; [exact Hne | lia].
Qed.

Lemma removePurchase_keeps_a_row_witness :
  removePurchase 1 [ {| purchase_id := 1; purchase_value := "10" |};
                     {| purchase_id := 2; purchase_value := "20" |} ] <> []
  /\ removePurchase 2 [ {| purchase_id := 2; purchase_value := "20" |} ]
     = [ {| purchase_id := 2; purchase_value := "20" |} ].
Proof.
  split.
  - apply removePurchase_keeps_a_row; [discriminate | vm_compute; reflexivity].
  - reflexivity.
Defined.

Lemma filled_updatePurchase (purchaseId : number) (purchases : list Purchase) :
  filled (updatePurchase purchaseId "" purchases)
  = filled (List.filter (λ p, strict_ne (purchase_id p) purchaseId) purchases).
Proof.
  unfold filled, updatePurchase, strict_ne.
  induction purchases as [| p ps IH]; simpl; [reflexivity |].
  destruct (purchase_id p =? purchaseId); simpl; [exact IH |].
  destruct (String.eqb (purchase_value p) ""); simpl; [exact IH | now f_equal].
Qed.

(** X20: as far as the average price goes, emptying the value of a
    purchase row is the same as deleting the row (which the delete button
    does when there are two rows or more). *)
Theorem updatePurchase_empty_as_removed (purchaseId : number) (totalCoins : string)
    (purchases : list Purchase) :
  (1 < length purchases)%nat ->
  averagePrice totalCoins (updatePurchase purchaseId "" purchases)
  = averagePrice totalCoins (removePurchase purchaseId purchases).
Proof.
  intros Hlen. unfold removePurchase.
  apply Nat.ltb_lt in Hlen. rewrite Hlen.
  apply averagePrice_same_total. rewrite !totalPurchases_entries.
  eapply same_up_to_zero_sign_trans.
  - apply same_up_to_zero_sign_sym, totalPurchases_filled_from. now left.
  - rewrite filled_updatePurchase. apply totalPurchases_filled_from. now left.
Qed.

Lemma updatePurchase_empty_as_removed_witness :
  averagePrice "2" (updatePurchase 1 ""
                      [ {| purchase_id := 1; purchase_value := "10" |};
                        {| purchase_id := 2; purchase_value := "20" |} ])
  = "10.0000".
Proof.
  rewrite updatePurchase_empty_as_removed by (simpl; lia).
  vm_compute. reflexivity.
Defined.

(** ** Loading again *)

Section Migration.

Lemma or_else_truthy (a b : jsval) : truthy b = true -> truthy (or_else a b) = true.
Proof. intros Hb. unfold or_else. destruct (truthy a) eqn:Ha; assumption. Qed.

Lemma or_else_idem (a b c : jsval) :
  truthy b = true -> or_else (or_else a b) c = or_else a b.
Proof.
  intros Hb. unfold or_else at 1. now rewrite or_else_truthy.
Qed.

Lemma migrate_type (now : number) (calc : object) :
  migrate now calc !! "type" = Some (or_else (get calc "type") (JStr "arbitrage")).
Proof. unfold migrate, spread. apply lookup_union_Some_l. reflexivity. Qed.

Lemma migrate_log (now : number) (calc : object) :
  migrate now calc !! "log" = Some (or_else (get calc "log") (JArr [])).
Proof. unfold migrate, spread. apply lookup_union_Some_l. reflexivity. Qed.

(** Migration does not change the variant. *)
Lemma migrate_variant (now : number) (calc : object) :
  strict_eq (get (migrate now calc) "type") (JStr "funding")
  = strict_eq (get calc "type") (JStr "funding").
Proof.
  unfold get at 1. rewrite migrate_type. simpl. unfold or_else.
  destruct (truthy (get calc "type")) eqn:Ht; [reflexivity |].
  destruct (get calc "type") as [| | b | x | s | l | o]; try reflexivity;
    try discriminate.
  simpl in Ht. destruct s; [reflexivity | discriminate].
Qed.

(** The templates of a variant have the same fields whatever the clock
    reading. *)
Lemma defaultState_fields (now now' : number) (calc : object) (k : string) :
  defaultState now' (migrate now calc) !! k = None
  <-> defaultState now calc !! k = None.
Proof.
  unfold defaultState. rewrite migrate_variant.
  destruct (strict_eq (get calc "type") (JStr "funding")); [reflexivity |].
  unfold getNewCalculator. rewrite !lookup_obj_cons, !lookup_obj_nil.
  repeat (case_decide; [split; discriminate |]). reflexivity.
Qed.

Lemma migrate_covers (now now' : number) (calc : object) (k : string) :
  migrate now calc !! k = None -> defaultState now' (migrate now calc) !! k = None.
Proof.
  intros H. apply defaultState_fields. unfold migrate, spread in H.
  rewrite !lookup_union_None in H. tauto.
Qed.

Lemma migrate_idempotent (now now' : number) (calc : object) :
  migrate now' (migrate now calc) = migrate now calc.
Proof.
  apply map_eq. intros k. unfold migrate at 1, spread.
  unfold get at 1 2. rewrite migrate_type, migrate_log.
  change (default JUndefined (Some ?x)) with x.
  rewrite !or_else_idem by reflexivity.
  destruct (decide (k = "type")) as [-> | Htype];
    [rewrite migrate_type; now apply lookup_union_Some_l |].
  destruct (decide (k = "log")) as [-> | Hlog];
    [rewrite migrate_log; now apply lookup_union_Some_l |].
  rewrite lookup_union_r.
  - rewrite lookup_union.
    destruct (migrate now calc !! k) eqn:Hk.
    + destruct (defaultState now' (migrate now calc) !! k); reflexivity.
    + now rewrite (migrate_covers now now' calc k Hk).
  - rewrite !lookup_obj_cons, lookup_obj_nil.
    repeat (case_decide; [congruence |]). reflexivity.
Qed.

End Migration.

(** X21: migrating an instance that was already migrated changes
    nothing, whatever the clock readings. *)
Theorem migrate_twice (now now' : number) (calc : object) :
  migrate now' (migrate now calc) = migrate now calc.
Proof. apply migrate_idempotent. Qed.

Lemma imap_migrate_twice (clock clock' : nat -> number) (calcs : list object) :
  imap (λ i calc, migrate (clock' i) calc) (imap (λ i calc, migrate (clock i) calc) calcs)
  = imap (λ i calc, migrate (clock i) calc) calcs.
Proof.
  revert clock clock'. induction calcs as [| c calcs IH]; intros clock clock';
    [reflexivity |].
  rewrite !imap_cons. rewrite migrate_idempotent. f_equal.
  apply (IH (clock ∘ S) (clock' ∘ S)).
Qed.

(** *** What the JSON text keeps *)

Section KeptByJSON.

Lemma JSON_object_kept (o : object) :
  JSON_object o = o <-> forall k v, o !! k = Some v -> JSON_property v = Some v.
Proof.
  unfold JSON_object. split.
  - intros H k v Hk.
    assert (Hlookup : omap JSON_property o !! k = o !! k) by now rewrite H.
    rewrite lookup_omap, Hk in Hlookup. exact Hlookup.
  - intros H. apply map_eq. intros k. rewrite lookup_omap.
    destruct (o !! k) as [v |] eqn:Hk; [| reflexivity].
    apply (H k v Hk).
Qed.

Lemma JSON_object_union (a b : object) :
  JSON_object a = a -> JSON_object b = b -> JSON_object (a ∪ b) = a ∪ b.
Proof.
  rewrite !JSON_object_kept. intros Ha Hb k v Hk.
  apply lookup_union_Some_raw in Hk as [Hk | [_ Hk]]; eauto.
Qed.

Lemma JSON_property_get (o : object) (k : string) :
  JSON_object o = o ->
  default JUndefined (JSON_property (get o k)) = get o k.
Proof.
  rewrite JSON_object_kept. intros H. unfold get.
  destruct (o !! k) as [v |] eqn:Hk; [| reflexivity].
  simpl. now rewrite (H k v Hk).
Qed.

(** A truthy field, or else a default that the text keeps. *)
Lemma JSON_property_or_else (o : object) (k : string) (d : jsval) :
  JSON_object o = o -> JSON_property d = Some d ->
  JSON_property (or_else (get o k) d) = Some (or_else (get o k) d).
Proof.
  rewrite JSON_object_kept. intros H Hd. unfold or_else, get.
  destruct (o !! k) as [v |] eqn:Hk; simpl; [| exact Hd].
  destruct (truthy v); [apply (H k v Hk) | exact Hd].
Qed.

Lemma defaultState_kept (now : number) (calc : object) :
  JSON_value (JNum now) = JNum now ->
  JSON_object (defaultState now calc) = defaultState now calc.
Proof.
  intros Hnow. unfold defaultState.
  destruct (strict_eq (get calc "type") (JStr "funding")); [reflexivity |].
  assert (Hrow : JSON_object (obj [("value", JStr ""); ("id", JNum now)])
                 = obj [("value", JStr ""); ("id", JNum now)]).
  { apply JSON_object_kept. intros k v.
    rewrite !lookup_obj_cons, lookup_obj_nil.
    repeat case_decide; intros [= <-]; [reflexivity |].
    unfold JSON_property. now rewrite Hnow. }
  apply JSON_object_kept. intros k v. unfold getNewCalculator.
  rewrite !lookup_obj_cons, lookup_obj_nil.
  repeat case_decide; intros [= <-]; try reflexivity.
  change (JSON_property (JArr [JObj ?o])) with (Some (JArr [JObj (JSON_object o)])).
  apply (f_equal (λ o, Some (JArr [JObj o]))). exact Hrow.
Qed.

Lemma migrate_kept (now : number) (calc : object) :
  JSON_value (JNum now) = JNum now ->
  JSON_object calc = calc ->
  JSON_object (migrate now calc) = migrate now calc.
Proof.
  intros Hnow Hcalc. unfold migrate, spread.
  apply JSON_object_union; [| apply JSON_object_union];
    [| exact Hcalc | now apply defaultState_kept].
  apply JSON_object_kept. intros k v.
  rewrite !lookup_obj_cons, lookup_obj_nil.
  repeat case_decide; intros [= <-];
    now apply JSON_property_or_else.
Qed.

Lemma imap_migrate_kept (clock : nat -> number) (calcs : list object) :
  (forall i, JSON_value (JNum (clock i)) = JNum (clock i)) ->
  map JSON_object calcs = calcs ->
  map JSON_object (imap (λ i calc, migrate (clock i) calc) calcs)
  = imap (λ i calc, migrate (clock i) calc) calcs.
Proof.
  revert clock. induction calcs as [| c calcs IH]; intros clock Hclock Hcalcs;
    [reflexivity |].
  rewrite imap_cons. cbn [map] in *. injection Hcalcs as Hc Hrest.
  rewrite (migrate_kept (clock O) c (Hclock O) Hc). f_equal.
  apply (IH (clock ∘ S)); [intros i; apply Hclock | exact Hrest].
Qed.

End KeptByJSON.

(** X22: a state that was loaded from a stored snapshot, then saved to
    the device and loaded again (no remote snapshot), comes back as it
    was: the instances are not migrated a second time and the active id
    stays, whatever the state the second load starts from. The snapshot
    and the clock readings of the first load must be values that their
    JSON text keeps ([JSON.stringify] writes [-0] as [0], and [NaN] and
    the infinities as [null]: a snapshot holding one of these is saved
    changed). *)
Theorem loadSettings_again (clock clock' : nat -> number) (saved : settings)
    (first : object) (rest : list object) (st0 st1 st2 : state) (c : cell settings) :
  settings_calculators saved = Some (first :: rest) ->
  reparsed saved = saved ->
  (forall i, JSON_value (JNum (clock i)) = JNum (clock i)) ->
  loadSettings clock None (Some saved) st0 = Returned st1 ->
  loadSettings clock' None (readLocalSettings (saveLocalState false true st1 c)) st2
  = Returned st1.
Proof.
  intros Hsaved Hkept Hclock. unfold loadSettings at 1. rewrite Hsaved.
  cbn [mbind mret outcome_bind outcome_ret].
  intros [= <-].
  unfold reparsed, Json_settings in Hkept. rewrite Hsaved in Hkept.
  assert (Hcalcs : map JSON_object (first :: rest) = first :: rest).
  { apply (f_equal settings_calculators) in Hkept.
    cbn [settings_calculators fmap option_fmap option_map] in Hkept.
    rewrite Hsaved in Hkept. injection Hkept as Hfirst Hrest.
    cbn [map]. now rewrite Hfirst, Hrest. }
  assert (Hactive : default JUndefined (JSON_property (settings_activeTabId saved))
                    = settings_activeTabId saved)
    by (apply (f_equal settings_activeTabId) in Hkept; exact Hkept).
  pose proof (imap_migrate_kept clock (first :: rest) Hclock Hcalcs) as Hmigrated.
  pose proof (imap_migrate_twice clock clock' (first :: rest)) as Htwice.
  rewrite (imap_cons _ first rest) in Htwice, Hmigrated.
  assert (Hfirst : JSON_object (migrate (clock O) first) = migrate (clock O) first)
    by (apply migrate_kept; [apply Hclock | now injection Hcalcs]).
  set (first' := migrate (clock O) first) in *.
  set (rest' := imap _ rest) in *.
  assert (Hactive' :
            default JUndefined
              (JSON_property (or_else (settings_activeTabId saved) (get first' "id")))
            = or_else (settings_activeTabId saved) (get first' "id")).
  { unfold or_else. destruct (truthy (settings_activeTabId saved));
      [exact Hactive | now apply JSON_property_get]. }
  unfold loadSettings, readLocalSettings, saveLocalState, setItem, getItem, JSON_parse,
    try_catch, reparsed, Json_settings.
  cbn [mbind mret outcome_bind outcome_ret settings_calculators settings_activeTabId
       calculators activeTabId fmap option_fmap option_map].
  rewrite Hmigrated, Hactive', Htwice. do 2 f_equal.
  rewrite imap_cons in Htwice. injection Htwice as Htwice _. rewrite Htwice.
  unfold or_else at 1.
  destruct (truthy (or_else _ _)) eqn:Htruthy; [reflexivity |].
  unfold or_else in *.
  destruct (truthy (settings_activeTabId saved)) eqn:Hsaved_active; [congruence |].
  reflexivity.
Qed.

Lemma loadSettings_again_witness :
  loadSettings (λ _, 6) None
    (readLocalSettings
       (saveLocalState false true
          {| calculators := [migrate 5 (obj [("id", JNum 1); ("name", JStr "B")]);
                             migrate 5 (obj [("id", JNum 2); ("name", JStr "C")])];
             activeTabId := JNum 2 |}
          Missing))
    three_tabs
  = Returned
      {| calculators := [migrate 5 (obj [("id", JNum 1); ("name", JStr "B")]);
                         migrate 5 (obj [("id", JNum 2); ("name", JStr "C")])];
         activeTabId := JNum 2 |}.
Proof.
  apply (loadSettings_again (λ _, 5) (λ _, 6) local_snapshot
           (obj [("id", JNum 1); ("name", JStr "B")])
           [obj [("id", JNum 2); ("name", JStr "C")]] three_tabs).
  - reflexivity.
  - vm_compute. reflexivity.
  - intros _. vm_compute. reflexivity.
  - reflexivity.
Defined.

(** A snapshot that its JSON text does not keep: an id [-0] is saved as
    [0], a field read from [1e400] as [null]. *)
Lemma saved_snapshot_changes :
  let st := {| calculators := [obj [("id", JNum (-0)); ("totalCoins", JNum infinity)]];
               activeTabId := JNum (-0) |} in
  readLocalSettings (saveLocalState false true st Missing)
  = Some {| settings_calculators := Some [obj [("id", JNum 0); ("totalCoins", JNull)]];
            settings_activeTabId := JNum 0 |}.
Proof. vm_compute. reflexivity. Qed.

(** ** When loading and adding tabs throw *)

Lemma mapM_thrown {A B} (f : A -> outcome B) (e : error) (x : A) (l : list A) :
  (forall y, f y = Thrown e) -> mapM f (x :: l) = Thrown e.
Proof.
  intros H.
  change (mapM f (x :: l)) with (f x ≫= λ y, mapM f l ≫= λ k, mret (y :: k)).
  now rewrite H.
Qed.

(** X23: for snapshots that are objects whose [calculators], where there
    is one, is an array of instance objects (what a [settings] record
    holds; a missing [calculators] stands for [undefined] and [null]),
    [loadSettings] throws in exactly two cases, both with the two
    snapshots present: the remote one has no [calculators], or it has a
    non-empty list and the local one has none. What it throws is a
    [TypeError]. For every other pair of such snapshots it returns.
    (Snapshots of another shape, such as a [calculators] that is a string
    or holds [null], are outside this statement.) *)
Theorem loadSettings_throws (clock : nat -> number)
    (cloudSettings localSettings : option settings) (st : state) (e : error) :
  loadSettings clock cloudSettings localSettings st = Thrown e
  <-> e = TypeError
      /\ exists c l, cloudSettings = Some c /\ localSettings = Some l
           /\ (settings_calculators c = None
               \/ (settings_calculators l = None
                   /\ exists first rest, settings_calculators c = Some (first :: rest))).
Proof.
  unfold loadSettings.
  destruct cloudSettings as [c |], localSettings as [l |].
  - destruct (settings_calculators c) as [cloudCalcs |] eqn:Hc.
    + destruct (settings_calculators l) as [localCalcs |] eqn:Hl.
      * rewrite (mergeCalculators_overlay c l cloudCalcs localCalcs Hc Hl).
        cbn [mbind mret outcome_bind outcome_ret].
        split.
        -- destruct (map _ cloudCalcs); discriminate.
        -- intros (_ & c' & l' & [= <-] & [= <-] & [H | [H _]]); congruence.
      * unfold mergeCalculators. rewrite Hc, Hl.
        destruct cloudCalcs as [| first rest].
        -- split; [discriminate |].
           intros (_ & c' & l' & [= <-] & [= <-] & [H | [_ (x & xs & H)]]);
             congruence.
        -- rewrite (mapM_thrown _ TypeError) by reflexivity.
           cbn [mbind outcome_bind]. split.
           ++ intros [= <-]. split; [reflexivity |].
              exists c, l. repeat split. right. split; [exact Hl |]. now exists first, rest.
           ++ intros [-> _]. reflexivity.
    + unfold mergeCalculators. rewrite Hc. cbn [mbind outcome_bind]. split.
      * intros [= <-]. split; [reflexivity |]. exists c, l. repeat split. now left.
      * intros [-> _]. reflexivity.
  - cbn [mbind mret outcome_bind outcome_ret]. split.
    + destruct (settings_calculators c) as [[| ? ?] |]; discriminate.
    + intros (_ & c' & l' & _ & [=] & _).
  - cbn [mbind mret outcome_bind outcome_ret]. split.
    + destruct (settings_calculators l) as [[| ? ?] |]; discriminate.
    + intros (_ & c' & l' & [=] & _).
  - split; [discriminate |]. intros (_ & c' & l' & [=] & _).
Qed.

Lemma loadSettings_throws_witness :
  loadSettings (λ _, 5) (Some remote_snapshot)
    (Some {| settings_calculators := None; settings_activeTabId := JUndefined |})
    three_tabs
  = Thrown TypeError.
Proof.
  apply loadSettings_throws. split; [reflexivity |].
  eexists _, _. split; [reflexivity |]. split; [reflexivity |].
  right. split; [reflexivity |]. eexists _, _. reflexivity.
Defined.

Lemma tab_number_returns (prefix : string) (c : object) :
  (exists n, tab_number prefix c = Returned n)
  <-> exists name, get c "name" = JStr name.
Proof.
  unfold tab_number. split.
  - intros [n H]. destruct (get c "name") as [| | | | name | |]; try discriminate.
    now exists name.
  - intros [name ->]. now eexists.
Qed.

Lemma mapM_tab_number (prefix : string) (calcs : list object) :
  (exists numbers, mapM (tab_number prefix) calcs = Returned numbers)
  <-> Forall (λ c, exists name, get c "name" = JStr name) calcs.
Proof.
  induction calcs as [| c calcs IH].
  - split; [constructor | now exists []].
  - change (mapM (tab_number prefix) (c :: calcs))
      with (tab_number prefix c ≫= λ y, mapM (tab_number prefix) calcs
                                        ≫= λ k, mret (y :: k)).
    rewrite Forall_cons, <- IH, <- (tab_number_returns prefix c).
    destruct (tab_number prefix c) as [n |], (mapM (tab_number prefix) calcs) as [ns |];
      cbn [mbind mret outcome_bind outcome_ret]; split.
    all: try (intros [? [=]]).
    all: try (intros [[? [=]] [? [=]]]).
    all: try (split; now eexists).
    all: now eexists.
Qed.

Lemma next_tab_number_returns (variant prefix : string) (calcs : list object) :
  (exists n, next_tab_number variant prefix calcs = Returned n)
  <-> Forall (λ c, strict_eq (get c "type") (JStr variant) = true ->
                   exists name, get c "name" = JStr name) calcs.
Proof.
  unfold next_tab_number. rewrite Forall_forall.
  split.
  - intros [n H].
    destruct (mapM _ _) as [ns |] eqn:Hns; [| discriminate].
    assert (Hall : exists numbers,
               mapM (tab_number prefix)
                    (List.filter (λ c, strict_eq (get c "type") (JStr variant)) calcs)
               = Returned numbers) by now exists ns.
    apply (proj1 (mapM_tab_number prefix _)) in Hall. rewrite Forall_forall in Hall.
    intros c Hc Htype. apply Hall. apply list_elem_of_In, filter_In.
    split; [now apply list_elem_of_In | exact Htype].
  - intros H.
    assert (Hall : Forall (λ c, exists name, get c "name" = JStr name)
                     (List.filter (λ c, strict_eq (get c "type") (JStr variant)) calcs)).
    { apply Forall_forall. intros c Hc. apply list_elem_of_In, filter_In in Hc as [Hc Ht].
      apply H; [now apply list_elem_of_In | exact Ht]. }
    destruct (proj2 (mapM_tab_number prefix _) Hall) as [ns Hns].
    rewrite Hns. now eexists.
Qed.

(** X24: adding a tab returns exactly when every instance of the variant
    has a string for name (otherwise [c.name.match] throws and nothing is
    added); when it returns, the instances that were there stay in place,
    one instance of the variant is appended with the new id, and that id
    is both returned and made the active one. *)
Theorem handleAddTab_returns (newId now : number) (st : state) :
  ((exists r, handleAddArbitrageTab newId now st = Returned r)
   <-> Forall (λ c, strict_eq (get c "type") (JStr "arbitrage") = true ->
                    exists name, get c "name" = JStr name) (calculators st))
  /\ ((exists r, handleAddFundingTab newId st = Returned r)
      <-> Forall (λ c, strict_eq (get c "type") (JStr "funding") = true ->
                       exists name, get c "name" = JStr name) (calculators st))
  /\ (forall st' id,
        handleAddArbitrageTab newId now st = Returned (st', id)
        \/ handleAddFundingTab newId st = Returned (st', id) ->
        id = newId /\ activeTabId st' = JNum newId
        /\ exists newCalc, calculators st' = (calculators st ++ [newCalc])%list
                           /\ get newCalc "id" = JNum newId).
Proof.
  split; [| split].
  - rewrite <- (next_tab_number_returns "arbitrage" "C "). unfold handleAddArbitrageTab.
    destruct (next_tab_number "arbitrage" "C " (calculators st)) as [n |];
      cbn [mbind mret outcome_bind outcome_ret];
      split; intros [? H]; try discriminate; eexists; reflexivity.
  - rewrite <- (next_tab_number_returns "funding" "FR "). unfold handleAddFundingTab.
    destruct (next_tab_number "funding" "FR " (calculators st)) as [n |];
      cbn [mbind mret outcome_bind outcome_ret];
      split; intros [? H]; try discriminate; eexists; reflexivity.
  - intros st' id [H | H].
    + unfold handleAddArbitrageTab in H.
      destruct (next_tab_number "arbitrage" "C " (calculators st)) as [n |];
        cbn [mbind mret outcome_bind outcome_ret] in H; [| discriminate].
      injection H as <- <-. repeat split. now eexists.
    + unfold handleAddFundingTab in H.
      destruct (next_tab_number "funding" "FR " (calculators st)) as [n |];
        cbn [mbind mret outcome_bind outcome_ret] in H; [| discriminate].
      injection H as <- <-. repeat split. now eexists.
Qed.

Lemma handleAddTab_returns_witness :
  exists r, handleAddFundingTab 40 three_tabs = Returned r.
Proof.
  apply (proj1 (proj2 (handleAddTab_returns 40 40 three_tabs))).
  unfold three_tabs. cbn [calculators].
  repeat (constructor; [intros _; eexists; reflexivity |]).
  constructor.
Defined.

(** ** The ids stay pairwise different *)

Section UniqueIds.

Lemma strict_eq_same (a a' b b' : jsval) :
  same_id a' a -> same_id b' b -> strict_eq a' b' = strict_eq a b.
Proof.
  intros [-> | Ha] [-> | Hb]; [reflexivity | | |].
  - destruct (strict_eq a b) eqn:E.
    + apply (strict_eq_trans _ b); [exact E | now apply strict_eq_sym].
    + destruct (strict_eq a b') eqn:E'; [| reflexivity].
      rewrite <- E. symmetry. now apply (strict_eq_trans _ b').
  - destruct (strict_eq a b) eqn:E.
    + now apply (strict_eq_trans _ a).
    + destruct (strict_eq a' b) eqn:E'; [| reflexivity].
      rewrite <- E. symmetry. apply (strict_eq_trans _ a'); [| exact E'].
      now apply strict_eq_sym.
  - destruct (strict_eq a b) eqn:E.
    + apply (strict_eq_trans _ a); [exact Ha |].
      apply (strict_eq_trans _ b); [exact E | now apply strict_eq_sym].
    + destruct (strict_eq a' b') eqn:E'; [| reflexivity].
      rewrite <- E. symmetry.
      apply (strict_eq_trans _ a'); [now apply strict_eq_sym |].
      now apply (strict_eq_trans _ b').
Qed.

Lemma unique_ids_Forall2 (l l' : list object) :
  Forall2 (λ c c', same_id (get c' "id") (get c "id")) l l' ->
  unique_ids l = true -> unique_ids l' = true.
Proof.
  induction 1 as [| c c' l l' Hc Hl IH]; [reflexivity |].
  simpl. intros [Hhead Hrest]%andb_true_iff.
  apply andb_true_iff. split; [| now apply IH].
  clear IH Hrest. induction Hl as [| d d' l l' Hd Hl IH]; [reflexivity |].
  simpl in *. apply andb_true_iff in Hhead as [Hd0 Hl0].
  apply andb_true_iff. split; [| now apply IH].
  unfold has_id in *.
  now rewrite (strict_eq_same _ _ _ _ Hd Hc), (strict_eq_same _ _ _ _ Hc Hd).
Qed.

Lemma unique_ids_map (f : object -> object) (l : list object) :
  (forall c, c ∈ l -> same_id (get (f c) "id") (get c "id")) ->
  unique_ids l = true -> unique_ids (map f l) = true.
Proof.
  intros Hf. apply unique_ids_Forall2.
  change (map f l) with (f <$> l). apply Forall2_fmap_r, Forall_Forall2_diag.
  apply Forall_forall. exact Hf.
Qed.

Lemma unique_ids_imap (f : nat -> object -> object) (l : list object) :
  (forall i c, c ∈ l -> same_id (get (f i c) "id") (get c "id")) ->
  unique_ids l = true -> unique_ids (imap f l) = true.
Proof.
  intros Hf. apply unique_ids_Forall2.
  revert f Hf. induction l as [| c l IH]; intros f Hf; [constructor |].
  rewrite imap_cons. constructor.
  - apply Hf. now left.
  - apply IH. intros i d Hd. apply Hf. now right.
Qed.

Lemma unique_ids_filter (q : object -> bool) (l : list object) :
  unique_ids l = true -> unique_ids (List.filter q l) = true.
Proof.
  induction l as [| c l IH]; [reflexivity |].
  simpl. intros [Hhead Hrest]%andb_true_iff.
  destruct (q c); [| now apply IH].
  simpl. apply andb_true_iff. split; [| now apply IH].
  rewrite forallb_forall in *. intros d Hd. apply Hhead.
  now apply filter_In in Hd as [Hd _].
Qed.

Lemma unique_ids_app (l : list object) (newCalc : object) :
  Forall (λ c, has_id (get newCalc "id") c = false) l ->
  unique_ids l = true -> unique_ids (l ++ [newCalc]) = true.
Proof.
  induction 1 as [| c l Hc Hl IH]; [reflexivity |].
  simpl. intros [Hhead Hrest]%andb_true_iff.
  apply andb_true_iff. split; [| now apply IH].
  rewrite forallb_app. apply andb_true_iff. split; [exact Hhead |].
  simpl. rewrite Hc. simpl.
  destruct (has_id (get c "id") newCalc) eqn:E; [| reflexivity].
  unfold has_id in *. apply strict_eq_sym in E. congruence.
Qed.

Lemma overlay_id (localCalcs : list object) (remote : object) :
  same_id (get (overlay localCalcs remote) "id") (get remote "id").
Proof.
  unfold overlay.
  destruct (List.find (has_id (get remote "id")) localCalcs) as [m |] eqn:Hfind;
    [| now left].
  apply find_some in Hfind as [_ Hm]. unfold has_id, get in *.
  rewrite lookup_union. destruct (m !! "id") as [v |] eqn:Hv.
  - right. destruct (remote !! "id"); exact Hm.
  - left. destruct (remote !! "id"); reflexivity.
Qed.

Lemma unique_ids_migrated (clock : nat -> number) (calcs : list object) :
  Forall (λ c, number_id c = true) calcs ->
  unique_ids calcs = true ->
  unique_ids (imap (λ i calc, migrate (clock i) calc) calcs) = true.
Proof.
  intros Hnum. apply unique_ids_imap. intros i c Hc. left.
  apply migrate_id. rewrite Forall_forall in Hnum. now apply Hnum.
Qed.

End UniqueIds.

(** X25: every handler of the tab store keeps the ids of the instances
    pairwise different (which is what removing a tab relies on to drop
    one instance only), given that the clock reading that becomes the id
    of a new tab is not in use and that loaded snapshots are consistent
    and have pairwise different ids themselves. *)
Theorem after_keeps_unique_ids (e : event) (st : state) :
  unique_ids (calculators st) = true ->
  admissible e = true ->
  brings_new_ids e st = true ->
  unique_ids (calculators (after e st)) = true.
Proof.
  intros Hunique Hadm Hnew. unfold after.
  destruct e as [clock cloud loc | newId now | newId | t now id | id name
                 | partialState | now | index];
    cbn [handle admissible brings_new_ids] in *.
  - apply andb_true_iff in Hadm as [Hcc Hcl].
    apply andb_true_iff in Hnew as [Huc Hul].
    unfold loadSettings.
    destruct cloud as [c |], loc as [l |]; cbn [consistent_opt unique_snapshot] in *.
    + destruct (settings_calculators c) as [rs |] eqn:Hrs.
      * destruct (settings_calculators l) as [ls |] eqn:Hls.
        -- rewrite (mergeCalculators_overlay c l rs ls Hrs Hls).
           cbn [mbind mret outcome_bind outcome_ret].
           destruct (map (overlay ls) rs) as [| first rest] eqn:Hmerged;
             [exact Hunique |].
           cbn [try_catch calculators]. rewrite <- Hmerged.
           apply unique_ids_migrated.
           ++ apply (overlay_ok ls rs (settings_activeTabId c)).
              ** apply (consistent_ok l ls Hcl Hls).
              ** apply (consistent_ok c rs Hcc Hrs).
           ++ apply unique_ids_map; [| exact Huc].
              intros r _. apply overlay_id.
        -- unfold mergeCalculators. rewrite Hrs, Hls.
           destruct rs as [| r rs]; [exact Hunique |].
           rewrite (mapM_thrown _ TypeError) by reflexivity. exact Hunique.
      * unfold mergeCalculators. rewrite Hrs. exact Hunique.
    + cbn [mbind mret outcome_bind outcome_ret].
      destruct (settings_calculators c) as [[| r rs] |] eqn:Hrs; try exact Hunique.
      cbn [try_catch calculators]. apply unique_ids_migrated; [| exact Huc].
      apply (consistent_ok c (r :: rs) Hcc Hrs).
    + cbn [mbind mret outcome_bind outcome_ret].
      destruct (settings_calculators l) as [[| r rs] |] eqn:Hrs; try exact Hunique.
      cbn [try_catch calculators]. apply unique_ids_migrated; [| exact Hul].
      apply (consistent_ok l (r :: rs) Hcl Hrs).
    + exact Hunique.
  - unfold handleAddArbitrageTab.
    destruct (next_tab_number "arbitrage" "C " (calculators st)) as [n |];
      [| exact Hunique].
    cbn [mbind mret outcome_bind outcome_ret try_catch fst calculators].
    apply unique_ids_app; [| exact Hunique].
    rewrite getNewCalculator_id. apply Forall_forall. intros c Hc.
    rewrite forallb_forall in Hnew. apply negb_true_iff, Hnew.
    now apply list_elem_of_In.
  - unfold handleAddFundingTab.
    destruct (next_tab_number "funding" "FR " (calculators st)) as [n |];
      [| exact Hunique].
    cbn [mbind mret outcome_bind outcome_ret try_catch fst calculators].
    apply unique_ids_app; [| exact Hunique].
    rewrite getNewFundingCalculator_id. apply Forall_forall. intros c Hc.
    rewrite forallb_forall in Hnew. apply negb_true_iff, Hnew.
    now apply list_elem_of_In.
  - unfold handleRemoveTab.
    destruct (length _ =? 0)%nat; [reflexivity |].
    destruct (strict_eq id (activeTabId st)).
    + destruct (_ !! _); [| exact Hunique].
      now apply unique_ids_filter.
    + now apply unique_ids_filter.
  - apply unique_ids_map; [| exact Hunique]. intros c _. left.
    destruct (has_id id c); [| reflexivity]. now apply get_spread_r.
  - apply bool_decide_eq_true in Hadm.
    apply unique_ids_map; [| exact Hunique]. intros c _. left.
    destruct (has_id (activeTabId st) c); [| reflexivity]. now apply get_spread_r.
  - apply unique_ids_map; [| exact Hunique]. intros c _. left.
    destruct (has_id (activeTabId st) c); [| reflexivity].
    destruct (strict_eq (get c "type") (JStr "funding")); now apply get_spread_r.
  - unfold selectTab. destruct (calculators st !! index); exact Hunique.
Qed.

Lemma after_keeps_unique_ids_witness :
  unique_ids (calculators (after (AddFundingTab 40) three_tabs)) = true
  /\ unique_ids
       (calculators (after (Load (λ _, 5) (Some remote_snapshot) (Some local_snapshot))
                       three_tabs)) = true.
Proof.
  split; apply after_keeps_unique_ids; reflexivity.
Defined.

(** ** The debounced save *)

Lemma debounce_from {A} (trace : list (timer_event A)) (s : debounce_state A) :
  delivered (foldl debounce_step s trace)
  = (delivered s ++ due (pending s) trace ++ fired trace)%list.
Proof.
  revert s. induction trace as [| e trace IH]; intros s.
  - simpl. destruct (pending s); simpl; now rewrite app_nil_r.
  - simpl foldl. rewrite IH. destruct e as [payload | |].
    + simpl. destruct (pending s), trace as [| [] trace]; reflexivity.
    + simpl. destruct (pending s) as [payload |] eqn:Hpending; simpl.
      * now rewrite <- app_assoc.
      * rewrite Hpending. destruct trace as [| [] trace]; reflexivity.
    + simpl. destruct (pending s), trace as [| [] trace]; reflexivity.
Qed.

(** X26: the callback behind [useDebouncedSave] is called exactly for
    the invocations that are directly followed by the elapse of the
    delay, once each, with their arguments and in their order: an
    invocation followed by another invocation, or by the teardown of the
    component, is dropped. *)
Theorem debounce_delivers_fired {A} (trace : list (timer_event A)) :
  delivered (debounce_run trace) = fired trace.
Proof. unfold debounce_run. now rewrite debounce_from. Qed.

(** ** The theme *)

(** X27: the effect that reads the stored theme never lets an exception
    out, and it replaces the theme only by a stored object whose [light]
    and [dark] are both truthy; in every other case (no text, a text
    that is no JSON, [null], a number, a string, an array, an object
    without one of the two) the theme stays. *)
Theorem loadTheme_validates (c : cell jsval) (theme : jsval) :
  loadTheme c theme = theme
  \/ exists o, c = Holds (Encoding (JObj o))
       /\ truthy (get o "light") = true /\ truthy (get o "dark") = true
       /\ loadTheme c theme = JObj o.
Proof.
  unfold loadTheme.
  destruct c as [| | [| parsedTheme]]; try (now left).
  destruct parsedTheme as [| | b | x | s | l | o]; try (now left).
  cbn [getItem JSON_parse read mbind mret outcome_bind outcome_ret try_catch].
  destruct (truthy (get o "light")) eqn:Hlight; [| now left].
  cbn [mbind mret outcome_bind outcome_ret].
  destruct (truthy (get o "dark")) eqn:Hdark; [| now left].
  right. now exists o.
Qed.

(** ** The tutorial *)

(** X28: whatever buttons and keys are pressed and whenever the
    scheduled resets arrive, the step index of the tutorial stays within
    the steps: [tutorialSteps[stepIndex]] is always a step. *)
Theorem tutorial_step_in_range (events : list tutorial_event) :
  (0 <= stepIndex (foldl tutorial_step tutorial_start events)
   < tutorialSteps_length)%Z.
Proof.
  assert (Hfrom : forall s,
             (0 <= stepIndex s < tutorialSteps_length)%Z ->
             (0 <= stepIndex (foldl tutorial_step s events) < tutorialSteps_length)%Z).
  { induction events as [| e events IH]; intros s Hs; [exact Hs |].
    cbn [foldl]. apply IH. unfold tutorial_step, closing.
    destruct e.
    - destruct (Z.ltb_spec (stepIndex s) (tutorialSteps_length - 1));
        cbn [stepIndex]; lia.
    - destruct (Z.ltb_spec 0 (stepIndex s)); cbn [stepIndex]; lia.
    - exact Hs.
    - destruct (resets_due s); cbn [stepIndex]; [exact Hs |].
      unfold tutorialSteps_length. lia. }
  apply Hfrom. unfold tutorialSteps_length. simpl. lia.
Qed.

(** ** Finding the active instance *)

Lemma find_only {A} (p : A -> bool) (l : list A) (i : nat) (x : A) :
  l !! i = Some x -> p x = true ->
  (forall j y, l !! j = Some y -> j <> i -> p y = false) ->
  List.find p l = Some x.
Proof.
  revert i. induction l as [| a l IH]; intros i Hi Hx Hothers; [discriminate |].
  destruct i as [| i]; simpl in *.
  - injection Hi as ->. now rewrite Hx.
  - rewrite (Hothers O a eq_refl) by lia.
    apply (IH i Hi Hx). intros j y Hj Hne. apply (Hothers (S j) y Hj). lia.
Qed.

Lemma find_unique (calcs : list object) (i : nat) (c : object) (id : jsval) :
  unique_ids calcs = true -> calcs !! i = Some c -> has_id id c = true ->
  List.find (has_id id) calcs = Some c.
Proof.
  intros Hu Hi Hc. apply (find_only _ _ i c Hi Hc).
  now apply (only_member_has_id calcs i c).
Qed.

Lemma find_appended (calcs : list object) (newCalc : object) (id : jsval) :
  Forall (λ c, has_id id c = false) calcs -> has_id id newCalc = true ->
  List.find (has_id id) (calcs ++ [newCalc]) = Some newCalc.
Proof.
  intros Hfresh Hnew. induction Hfresh as [| c calcs Hc _ IH]; simpl.
  - now rewrite Hnew.
  - now rewrite Hc.
Qed.

Section ShowVariantTab.

Variables (variant : string) (add : state -> outcome (state * number)).
Variables (newId : number) (st : state).

Hypothesis Hunique : unique_ids (calculators st) = true.
Hypothesis Hproper : Forall proper (calculators st).
Hypothesis Hnew : isNaN newId = false.
Hypothesis Hfresh : Forall (λ c, has_id (JNum newId) c = false) (calculators st).
Hypothesis Hadd :
  forall st1 id, add st = Returned (st1, id) ->
    id = newId
    /\ exists newCalc, calculators st1 = (calculators st ++ [newCalc])%list
         /\ get newCalc "id" = JNum newId
         /\ get newCalc "type" = JStr variant.

Lemma showVariantTab_active (st' : state) :
  showVariantTab variant add st = Returned st' ->
  exists tab, activeCalculator st' = Some tab /\ get tab "type" = JStr variant.
Proof.
  unfold showVariantTab.
  destruct (List.find _ (calculators st)) as [tab |] eqn:Hfind.
  - apply find_some in Hfind as [Hin Htype].
    apply list_elem_of_In, list_elem_of_lookup in Hin as [i Hi].
    assert (Hp : proper tab) by (eapply Forall_lookup_1; eauto).
    assert (Hty : get tab "type" = JStr variant).
    { destruct (get tab "type"); try discriminate.
      simpl in Htype. now apply String.eqb_eq in Htype as ->. }
    destruct (strict_eq (activeTabId st) (get tab "id")) eqn:Hactive; simpl;
      intros [= <-]; exists tab; (split; [| exact Hty]); unfold activeCalculator.
    + apply (find_unique _ i); auto. unfold has_id. now apply strict_eq_sym.
    + apply (find_unique _ i); auto.
  - destruct (add st) as [[st1 id] |] eqn:Hr; [| discriminate].
    cbn [mbind mret outcome_bind outcome_ret fst snd]. intros [= <-].
    destruct (Hadd st1 id eq_refl) as (-> & newCalc & Hcalcs & Hid & Hty).
    exists newCalc. split; [| exact Hty].
    unfold activeCalculator. cbn [calculators activeTabId]. rewrite Hcalcs.
    apply find_appended; [exact Hfresh |].
    unfold has_id. rewrite Hid. now apply number_proper.
Qed.

End ShowVariantTab.

(** X29: when the tutorial reaches the step of the arbitrage tab (or of
    the funding tab) and its action returns, the active instance is one
    of that variant: the first one that exists or, if there is none, the
    one the action adds. The ids are taken to be pairwise different and
    the new id to be fresh. *)
Theorem tutorial_shows_variant (newId now : number) (st st' : state) :
  unique_ids (calculators st) = true ->
  Forall proper (calculators st) ->
  isNaN newId = false ->
  Forall (λ c, has_id (JNum newId) c = false) (calculators st) ->
  (showVariantTab "arbitrage" (handleAddArbitrageTab newId now) st = Returned st' ->
   exists tab, activeCalculator st' = Some tab /\ get tab "type" = JStr "arbitrage")
  /\ (showVariantTab "funding" (handleAddFundingTab newId) st = Returned st' ->
      exists tab, activeCalculator st' = Some tab /\ get tab "type" = JStr "funding").
Proof.
  intros Hunique Hproper Hnew Hfresh. split.
  - apply (showVariantTab_active _ _ newId); auto.
    intros st1 id. unfold handleAddArbitrageTab.
    destruct (next_tab_number "arbitrage" "C " (calculators st)) as [n |];
      cbn [mbind mret outcome_bind outcome_ret]; [| discriminate].
    intros [= <- <-]. split; [reflexivity |]. eexists. repeat split.
  - apply (showVariantTab_active _ _ newId); auto.
    intros st1 id. unfold handleAddFundingTab.
    destruct (next_tab_number "funding" "FR " (calculators st)) as [n |];
      cbn [mbind mret outcome_bind outcome_ret]; [| discriminate].
    intros [= <- <-]. split; [reflexivity |]. eexists. repeat split.
Qed.

Lemma tutorial_shows_variant_witness :
  exists st' tab,
    showVariantTab "funding" (handleAddFundingTab 40)
      {| calculators := calculators three_tabs; activeTabId := JNum 10 |}
    = Returned st'
    /\ activeCalculator st' = Some tab /\ get tab "type" = JStr "funding".
Proof.
  exists {| calculators := calculators three_tabs; activeTabId := JNum 20 |}.
  assert (H : showVariantTab "funding" (handleAddFundingTab 40)
                {| calculators := calculators three_tabs; activeTabId := JNum 10 |}
              = Returned {| calculators := calculators three_tabs;
                            activeTabId := JNum 20 |}) by reflexivity.
  destruct (proj2 (tutorial_shows_variant 40 40
                     {| calculators := calculators three_tabs; activeTabId := JNum 10 |}
                     {| calculators := calculators three_tabs; activeTabId := JNum 20 |}
                     eq_refl
                     ltac:(repeat constructor)
                     eq_refl
                     ltac:(repeat constructor)) H) as (tab & Hactive & Htype).
  exists tab. split; [exact H |]. split; [exact Hactive | exact Htype].
Defined.

(** X30: pressing the average toggle twice gives the state back, when
    the ids are pairwise different and the active instance holds a
    boolean [showAverage] (as every arbitrage instance made by the
    component does). *)
Theorem toggleAverage_twice (st : state) (active : object) (b : bool) :
  unique_ids (calculators st) = true ->
  activeCalculator st = Some active ->
  active !! "showAverage" = Some (JBool b) ->
  toggleAverage (toggleAverage st) = st.
Proof.
  intros Hunique Hactive Hshow. unfold toggleAverage at 2. rewrite Hactive.
  destruct (strict_eq (get active "type") (JStr "arbitrage")) eqn:Htype.
  2: { unfold toggleAverage. now rewrite Hactive, Htype. }
  pose proof Hactive as Hfind. unfold activeCalculator in Hfind.
  apply find_some in Hfind as [Hin Hid].
  apply list_elem_of_In, list_elem_of_lookup in Hin as [i Hi].
  set (p1 := obj [("showAverage", not_value (get active "showAverage"))]).
  assert (Hactive1 : activeCalculator (handleUpdateInstance p1 st) = Some (spread active p1)).
  { unfold activeCalculator, handleUpdateInstance. cbn [calculators activeTabId].
    apply (find_only _ _ i).
    - change (map ?f ?l) with (f <$> l). rewrite list_lookup_fmap, Hi. simpl.
      now rewrite Hid.
    - now rewrite has_id_spread.
    - intros j y. change (map ?f ?l) with (f <$> l). rewrite list_lookup_fmap.
      destruct (calculators st !! j) as [d |] eqn:Hj; [| discriminate].
      intros [= <-] Hne.
      pose proof (only_member_has_id _ i active _ Hunique Hi Hid j d Hj Hne) as Hd.
      rewrite Hd. exact Hd. }
  unfold toggleAverage. rewrite Hactive1.
  rewrite get_spread_r by reflexivity. rewrite Htype.
  rewrite handleUpdateInstance_compose by reflexivity.
  destruct st as [calcs activeId]. unfold handleUpdateInstance.
  cbn [calculators activeTabId] in *. f_equal.
  rewrite <- (map_id calcs) at 2. apply map_ext_in. intros d Hd.
  apply list_elem_of_In, list_elem_of_lookup in Hd as [j Hj].
  destruct (decide (j = i)) as [-> | Hne].
  - assert (d = active) as -> by congruence. rewrite Hid.
    unfold p1. rewrite (get_spread_l _ _ "showAverage" (not_value (get active "showAverage")))
      by reflexivity.
    unfold get. rewrite Hshow.
    change (not_value (not_value (default JUndefined (Some (JBool b)))))
      with (JBool (negb (negb b))).
    rewrite negb_involutive.
    unfold spread. apply map_eq. intros k.
    destruct (decide (k = "showAverage")) as [-> | Hk].
    + rewrite Hshow. apply lookup_union_Some_l, lookup_union_Some_l. reflexivity.
    + apply lookup_union_r, lookup_union_None.
      rewrite !lookup_obj_cons, lookup_obj_nil.
      rewrite !decide_False by congruence. now split.
  - now rewrite (only_member_has_id _ i active _ Hunique Hi Hid j d Hj Hne).
Qed.

Lemma toggleAverage_twice_witness :
  toggleAverage (toggleAverage
                   {| calculators := calculators three_tabs; activeTabId := JNum 10 |})
  = {| calculators := calculators three_tabs; activeTabId := JNum 10 |}.
Proof.
  apply (toggleAverage_twice _ (getNewCalculator 10 10 1) false); reflexivity.
Defined.
